(** * Curve matching and test-point assignment (Task_1/mapping.py)

    A shallow embedding of the three classes of [mapping.py]
    ([DataHandling], [FunctionSelection], [TestDataMapper]) and the
    properties of best-fit selection, ranking, deviation computation and
    test-point assignment.

    Numbers.  The program computes on numpy [float64] values.  The
    embedding takes the values held in the tables to be rationals and
    computes on them exactly; the three non-finite results the code can
    produce from such tables ([float('inf')], the [nan] of a numpy
    division [0/0], and the exceptions of a Python division by zero or of
    a reduction over an empty array) are modelled explicitly. *)

From Stdlib Require Import QArith Qabs Qround Qreals Reals Lqa Lra Lia.
From stdpp Require Import gmap strings list fin_maps sorting.

Local Open Scope Q_scope.

(** ** Numbers *)

(** A Python/numpy float as the code can meet it: a finite value,
    [float('inf')], or [nan]. *)
Inductive num : Type :=
| Fin (q : Q)
| PInf
| NaN.

Definition Qltb (a b : Q) : bool := negb (Qle_bool b a).

(** [a < b] on floats: every comparison with [nan] is false. *)
Definition num_ltb (a b : num) : bool :=
  match a, b with
  | Fin p, Fin q => Qltb p q
  | Fin _, PInf => true
  | _, _ => false
  end.

(** The order in which finite values and [inf] are ranked. *)
Definition num_le (a b : num) : Prop :=
  match a, b with
  | Fin p, Fin q => p <= q
  | Fin _, PInf => True
  | PInf, PInf => True
  | _, _ => False
  end.

(** [rint]: rounding to the nearest integer, halves to the even one. *)
Definition rint (q : Q) : Z :=
  let f := Qfloor q in
  let r := q - inject_Z f in
  match Qcompare r (1 # 2) with
  | Lt => f
  | Gt => (f + 1)%Z
  | Eq => if Z.even f then f else (f + 1)%Z
  end.

(** [round(v, 4)] on a finite value: [rint(v * 10**4) / 10**4]. *)
Definition round4 (q : Q) : Q := inject_Z (rint (q * 10000)) / 10000.

(** [round(v, 4)] on a float: [inf] and [nan] are returned unchanged. *)
Definition num_round4 (v : num) : num :=
  match v with
  | Fin q => Fin (round4 q)
  | PInf => PInf
  | NaN => NaN
  end.

(** [deviation <= np.sqrt(2) * m], decided on rationals without computing
    the root: by the signs of the two sides, and by comparing squares when
    the signs agree.  [Qle_sqrt2_mul_spec] relates it to the real
    inequality. *)
Definition Qle_sqrt2_mul (d m : Q) : bool :=
  if Qle_bool 0 m
  then Qle_bool d 0 || Qle_bool (d * d) (2 * (m * m))
  else Qltb d 0 && Qle_bool (2 * (m * m)) (d * d).

(** ** Exceptions *)

Inductive exn : Type :=
| ZeroDivisionError
| KeyError (key : option string)
| ValueError
| AttributeError.

Inductive outcome (A : Type) : Type :=
| Ok (a : A)
| Raise (e : exn).
Arguments Ok {A} a.
Arguments Raise {A} e.

#[global] Instance outcome_ret : MRet outcome := fun A a => Ok a.
#[global] Instance outcome_bind : MBind outcome := fun A B k m =>
  match m with
  | Ok a => k a
  | Raise e => Raise e
  end.

(** ** Tables and numpy operations *)

(** A pandas [DataFrame]: its named columns, in column order.  All columns
    of a real [DataFrame] have the same number of rows; the definitions do
    not depend on it. *)
Definition DataFrame : Type := list (string * list Q).

Fixpoint df_col (df : DataFrame) (col : string) : option (list Q) :=
  match df with
  | [] => None
  | (name, values) :: rest =>
      if decide (name = col) then Some values else df_col rest col
  end.

(** [df[col].values] *)
Definition getitem (df : DataFrame) (col : string) : outcome (list Q) :=
  match df_col df col with
  | Some values => Ok values
  | None => Raise (KeyError (Some col))
  end.

(** [DataHandling.get_columns] *)
Definition get_columns (data : DataFrame) (prefix : string) : list string :=
  List.filter (String.prefix prefix) (map fst data).

(** [a - b] on one-dimensional arrays, with numpy's broadcasting of a
    one-element array and its error on other shape mismatches. *)
Definition np_sub (a b : list Q) : outcome (list Q) :=
  if decide (length a = length b) then Ok (zip_with Qminus a b)
  else match a, b with
       | [x], _ => Ok (map (fun y => x - y) b)
       | _, [y] => Ok (map (fun x => x - y) a)
       | _, _ => Raise ValueError
       end.

Definition np_sum (a : list Q) : Q := foldr Qplus 0 a.

Definition np_abs (a : list Q) : list Q := map Qabs a.

Definition Qmax (a b : Q) : Q := if Qle_bool a b then b else a.

(** [np.max]: an empty array has no maximum. *)
Definition np_max (a : list Q) : outcome Q :=
  match a with
  | [] => Raise ValueError
  | x :: rest => Ok (foldl Qmax x rest)
  end.

(** [v / n] for the accumulated [min_sse] and [n = len(y_train)].  For
    [n = 0] the initial Python float [inf] raises, while a numpy value
    (a sum of squares, never negative) gives [nan] for [0/0] and [inf]
    otherwise, with a warning only. *)
Definition div_len (v : num) (n : nat) : outcome num :=
  match n, v with
  | O, PInf => Raise ZeroDivisionError
  | O, Fin q => Ok (if Qeq_bool q 0 then NaN else PInf)
  | O, NaN => Ok NaN
  | S _, Fin q => Ok (Fin (q / inject_Z (Z.of_nat n)))
  | S _, _ => Ok v
  end.

(** ** Python dictionaries and [sorted] *)

(** A [dict] with string keys, as its items in insertion order. *)
Definition dict (V : Type) : Type := list (string * V).

(** [d[k] = v]: an existing key keeps its position. *)
Fixpoint dict_set {V : Type} (d : dict V) (k : string) (v : V) : dict V :=
  match d with
  | [] => [(k, v)]
  | (k', v') :: rest =>
      if decide (k' = k) then (k, v) :: rest else (k', v') :: dict_set rest k v
  end.

(** [dict(items)] *)
Definition dict_of_items {V : Type} (items : list (string * V)) : dict V :=
  foldl (fun d kv => dict_set d kv.1 kv.2) [] items.

(** [x] enters a sorted list behind the elements of smaller key and in
    front of the first element whose key is not smaller than its own. *)
Fixpoint insert_by {A : Type} (key : A -> num) (x : A) (l : list A) : list A :=
  match l with
  | [] => [x]
  | y :: rest =>
      if num_ltb (key y) (key x) then y :: insert_by key x rest else x :: l
  end.

(** [sorted(l, key=key)]: Python's sort is stable and compares keys with
    [<] only; on keys without [nan] its result is that of the stable
    insertion sort. *)
Definition py_sorted {A : Type} (key : A -> num) (l : list A) : list A :=
  foldr (insert_by key) [] l.

(** ** The classes *)

(** An instance of [TestDataMapper] (which extends [FunctionSelection] and
    [DataHandling]).  The test table is held as its points
    [(row['x'], row['y'])]. *)
Record TestDataMapper : Type := {
  train_data : DataFrame;
  ideal_data : DataFrame;
  test_data : list (Q * Q);
  max_deviation : gmap string Q;
  selected_functions : gmap string (option string)
}.

(** [TestDataMapper.__init__] after the tables are loaded. *)
Definition init (train ideal : DataFrame) (test : list (Q * Q)) : TestDataMapper :=
  {| train_data := train; ideal_data := ideal; test_data := test;
     max_deviation := ∅; selected_functions := ∅ |}.

(** [self.y_train_cols] and [self.y_ideal_cols], set in
    [FunctionSelection.__init__] from tables that no method assigns
    afterwards. *)
Definition y_train_cols (self : TestDataMapper) : list string :=
  get_columns (train_data self) "y".
Definition y_ideal_cols (self : TestDataMapper) : list string :=
  get_columns (ideal_data self) "y".

(** [np.sum((y_train - y_ideal) ** 2)] *)
Definition sse (y_train y_ideal : list Q) : outcome Q :=
  d ← np_sub y_train y_ideal; Ok (np_sum (map (fun e => e ^ 2) d)).

(** The inner loop of [find_best_fit] over the ideal columns, on the pair
    [(min_sse, best_match)].  The [mse] computed in the loop is not used
    (a numpy division, which raises nothing). *)
Fixpoint scan_ideal (ideal : DataFrame) (y_train : list Q)
    (cols : list string) (acc : num * option string)
  : outcome (num * option string) :=
  match cols with
  | [] => Ok acc
  | ideal_col :: rest =>
      y_ideal ← getitem ideal ideal_col;
      if decide (length y_train ≠ length y_ideal) then
        scan_ideal ideal y_train rest acc
      else
        s ← sse y_train y_ideal;
        if num_ltb (Fin s) acc.1
        then scan_ideal ideal y_train rest (Fin s, Some ideal_col)
        else scan_ideal ideal y_train rest acc
  end.

(** The entries of [best_fits]: [(best_match, rounded mse)]. *)
Definition fit : Type := option string * num.

(** The outer loop of [find_best_fit] over the training columns. *)
Fixpoint select_loop (self : TestDataMapper) (cols : list string)
    (best_fits : dict fit) : outcome (dict fit) :=
  match cols with
  | [] => Ok best_fits
  | train_col :: rest =>
      y_train ← getitem (train_data self) train_col;
      r ← scan_ideal (ideal_data self) y_train (y_ideal_cols self) (PInf, None);
      mse ← div_len r.1 (length y_train);
      select_loop self rest (dict_set best_fits train_col (r.2, num_round4 mse))
  end.

(** The key of the ranking: [lambda x: x[1][1]]. *)
Definition fit_key (item : string * fit) : num := item.2.2.

(** The body of the [try] block of [find_best_fit]. *)
Definition find_best_fit_body (self : TestDataMapper) : outcome (dict fit) :=
  best_fits ← select_loop self (y_train_cols self) [];
  let best_fits_sorted := take 4 (py_sorted fit_key best_fits) in
  Ok (dict_of_items best_fits_sorted).

(** [FunctionSelection.find_best_fit]: [except Exception] turns every
    exception of the body into the return value [None]. *)
Definition find_best_fit (self : TestDataMapper) : option (dict fit) :=
  match find_best_fit_body self with
  | Ok best_fits => Some best_fits
  | Raise _ => None
  end.

Definition set_selected (self : TestDataMapper) (k : string) (v : option string)
  : TestDataMapper :=
  {| train_data := train_data self; ideal_data := ideal_data self;
     test_data := test_data self; max_deviation := max_deviation self;
     selected_functions := <[k := v]> (selected_functions self) |}.

Definition set_max_deviation (self : TestDataMapper) (k : string) (v : Q)
  : TestDataMapper :=
  {| train_data := train_data self; ideal_data := ideal_data self;
     test_data := test_data self; max_deviation := <[k := v]> (max_deviation self);
     selected_functions := selected_functions self |}.

(** A column label used as a [DataFrame] key: [df[None]] is a [KeyError]. *)
Definition label (f : option string) : outcome string :=
  match f with
  | Some name => Ok name
  | None => Raise (KeyError None)
  end.

(** [np.max(np.abs(train_data[train_col].values - ideal_data[best_func].values))],
    with the label of the ideal column. *)
Definition pair_max_deviation (self : TestDataMapper) (train_col : string)
    (best_func : option string) : outcome (string * Q) :=
  y_train ← getitem (train_data self) train_col;
  f ← label best_func;
  y_ideal ← getitem (ideal_data self) f;
  d ← np_sub y_train y_ideal;
  m ← np_max (np_abs d);
  Ok (f, m).

(** The loop of [compute_max_deviation] over [best_fits.items()].  The
    object keeps the assignments made before an exception. *)
Fixpoint deviation_loop (items : dict fit) (self : TestDataMapper)
  : outcome () * TestDataMapper :=
  match items with
  | [] => (Ok (), self)
  | (train_col, (best_func, _)) :: rest =>
      let self1 := set_selected self train_col best_func in
      match pair_max_deviation self1 train_col best_func with
      | Raise e => (Raise e, self1)
      | Ok (f, m) => deviation_loop rest (set_max_deviation self1 f m)
      end
  end.

(** [TestDataMapper.compute_max_deviation]: [best_fits.items()] on the
    [None] returned by a failed selection is an [AttributeError]. *)
Definition compute_max_deviation (self : TestDataMapper)
  : outcome () * TestDataMapper :=
  match find_best_fit self with
  | None => (Raise AttributeError, self)
  | Some best_fits => deviation_loop best_fits self
  end.

(** One row of the frame returned by [map_test_data]. *)
Record mapped_row : Type := {
  row_x : Q;
  row_y_test : Q;
  row_deviation : num;
  row_ideal_function : option string
}.

(** [df.loc[df['x'] == x_test, f].values], from the two columns. *)
Definition loc (xs ys : list Q) (x_test : Q) : list Q :=
  map snd (List.filter (fun p => Qeq_bool p.1 x_test) (zip xs ys)).

(** [self.max_deviation[f]] *)
Definition max_deviation_at (self : TestDataMapper) (f : string) : outcome Q :=
  match max_deviation self !! f with
  | Some m => Ok m
  | None => Raise (KeyError (Some f))
  end.

(** The inner loop of [map_test_data] on the pair
    [(best_match, min_deviation)], over the selected functions in the
    order [funcs] in which the set is iterated. *)
Fixpoint scan_selected (self : TestDataMapper) (x_test y_test : Q)
    (funcs : list (option string)) (acc : option string * num)
  : outcome (option string * num) :=
  match funcs with
  | [] => Ok acc
  | ideal_func :: rest =>
      xs ← getitem (ideal_data self) "x";
      f ← label ideal_func;
      ys ← getitem (ideal_data self) f;
      match loc xs ys x_test with
      | [] => scan_selected self x_test y_test rest acc
      | y0 :: _ =>
          let deviation := Qabs (y_test - y0) in
          m ← max_deviation_at self f;
          if Qle_sqrt2_mul deviation m && num_ltb (Fin deviation) acc.2
          then scan_selected self x_test y_test rest (ideal_func, Fin deviation)
          else scan_selected self x_test y_test rest acc
      end
  end.

Definition map_row (self : TestDataMapper) (funcs : list (option string))
    (row : Q * Q) : outcome mapped_row :=
  r ← scan_selected self row.1 row.2 funcs (None, PInf);
  Ok {| row_x := row.1; row_y_test := row.2;
        row_deviation := r.2; row_ideal_function := r.1 |}.

(** [TestDataMapper.map_test_data].  The iteration order of
    [set(self.selected_functions.values())] is not fixed by Python; it is
    the parameter [funcs], any duplicate-free enumeration of the set
    ([set_order]). *)
Definition map_test_data (self : TestDataMapper) (funcs : list (option string))
  : outcome (list mapped_row) :=
  mapM (map_row self funcs) (test_data self).

Definition set_order (self : TestDataMapper) (funcs : list (option string)) : Prop :=
  NoDup funcs ∧
  ∀ f, f ∈ funcs ↔ ∃ c, selected_functions self !! c = Some f.

(** Calls of the three core operations, as a caller can sequence them
    (an exception is caught by the caller, the object lives on). *)
Inductive call : Type :=
| CallFindBestFit
| CallComputeMaxDeviation
| CallMapTestData (funcs : list (option string)).

Definition run_call (c : call) (self : TestDataMapper) : TestDataMapper :=
  match c with
  | CallFindBestFit => self
  | CallComputeMaxDeviation => (compute_max_deviation self).2
  | CallMapTestData _ => self
  end.

Definition run_calls (cs : list call) (self : TestDataMapper) : TestDataMapper :=
  foldl (fun s c => run_call c s) self cs.

(** ** Scenarios *)

Module Scenario.
(** The end-to-end scenario of the specification. *)
Definition train : DataFrame := [("x", [0; 1; 2]); ("y1", [0; 1; 2])].
Definition ideal : DataFrame :=
  [("x", [0; 1; 2]); ("y1", [0; 1; 2]); ("y2", [0; 2; 4])].
Definition test : list (Q * Q) := [(1, 1); (1, 5)].
Definition mapper : TestDataMapper := init train ideal test.
(** The object after [compute_max_deviation()], as [main] uses it. *)
Definition mapped : TestDataMapper := (compute_max_deviation mapper).2.
End Scenario.

Module Rounding.
(** A fit whose MSE, 1/3, has no exact four-decimal value. *)
Definition train : DataFrame := [("x", [0; 1; 2]); ("y1", [0; 0; 1])].
Definition ideal : DataFrame := [("x", [0; 1; 2]); ("y1", [0; 0; 0])].
Definition mapper : TestDataMapper := init train ideal [].
End Rounding.

Module Mismatch.
(** The shape-mismatch scenario of the specification: a training curve of
    length 3 against an ideal table of length 2. *)
Definition train : DataFrame := [("x", [0; 1; 2]); ("y1", [0; 1; 2])].
Definition ideal : DataFrame := [("x", [0; 1]); ("y1", [0; 1])].
Definition mapper : TestDataMapper := init train ideal [].
End Mismatch.

Module SharedIdeal.
(** Two training curves whose best fit is the same ideal curve. *)
Definition train : DataFrame := [("x", [0]); ("y1", [0]); ("y2", [1])].
Definition ideal : DataFrame := [("x", [0]); ("y1", [0])].
Definition mapper : TestDataMapper := init train ideal [].
End SharedIdeal.

Module EmptyTrain.
(** Tables without rows, and no ideal curve at all. *)
Definition train : DataFrame := [("x", []); ("y1", [])].
Definition ideal : DataFrame := [("x", [])].
Definition mapper : TestDataMapper := init train ideal [].
End EmptyTrain.

Module Fixture.
(** The tables of [test_mapping.py]. *)
Definition train : DataFrame :=
  [("x", [1; 2; 3]); ("y1", [1.1; 2.1; 3.1]); ("y2", [1.2; 2.2; 3.2])].
Definition ideal : DataFrame :=
  [("x", [1; 2; 3]); ("y1", [1; 2; 3]); ("y2", [1.1; 2.1; 3.1])].
Definition test : list (Q * Q) := [(1, 1.05); (2, 2.05); (3, 3.05)].
Definition mapper : TestDataMapper := init train ideal test.
Definition mapped : TestDataMapper := (compute_max_deviation mapper).2.
End Fixture.

(** ** Vocabulary of the properties *)

(** [sum((c_i - d_i)^2)] over two curves on a shared grid. *)
Definition SSE (c d : list Q) : Q :=
  np_sum (map (fun e => e ^ 2) (zip_with Qminus c d)).

(** [d.get(k)] *)
Fixpoint dict_get {V : Type} (d : dict V) (k : string) : option V :=
  match d with
  | [] => None
  | (k', v) :: rest => if decide (k' = k) then Some v else dict_get rest k
  end.

(** Ascending by key. *)
Definition ascending {A : Type} (key : A -> num) (l : list A) : Prop :=
  StronglySorted (fun a b => num_le (key a) (key b)) l.

(** [best] with accumulated error [m] is the first ideal column of [cols]
    that attains the least SSE against the curve [yc], among the columns of
    the length of [yc]; [None] with [inf] when there is no such column. *)
Definition first_min (ideal : DataFrame) (cols : list string) (yc : list Q)
    (best : option string) (m : num) : Prop :=
  match best with
  | None =>
      m = PInf ∧
      ∀ d yd, d ∈ cols → df_col ideal d = Some yd → length yc ≠ length yd
  | Some d =>
      ∃ (i : nat) yd,
        cols !! i = Some d ∧ df_col ideal d = Some yd ∧
        length yc = length yd ∧ m = Fin (SSE yc yd) ∧
        ∀ (j : nat) d' yd',
          cols !! j = Some d' → df_col ideal d' = Some yd' →
          length yc = length yd' →
          SSE yc yd <= SSE yc yd' ∧ ((j < i)%nat → SSE yc yd < SSE yc yd')
  end.

(** The entry computed for one training column: one round of the outer
    loop of [find_best_fit], before the assignment to [best_fits]. *)
Definition select_one (self : TestDataMapper) (train_col : string) : outcome fit :=
  y_train ← getitem (train_data self) train_col;
  r ← scan_ideal (ideal_data self) y_train (y_ideal_cols self) (PInf, None);
  mse ← div_len r.1 (length y_train);
  Ok (r.2, num_round4 mse).

(** Every column of the table has at least one row. *)
Definition has_rows (df : DataFrame) : Prop := Forall (fun col => col.2 ≠ []) df.

(** What [find_best_fit] records for the training column [c]. *)
Definition selected_entry (self : TestDataMapper) (c : string) (e : fit) : Prop :=
  ∃ yc m mse,
    df_col (train_data self) c = Some yc ∧
    first_min (ideal_data self) (y_ideal_cols self) yc e.1 m ∧
    div_len m (length yc) = Ok mse ∧
    e.2 = num_round4 mse.

(** [MSE(c,d) = SSE(c,d) / n] *)
Definition MSE (c d : list Q) : Q := SSE c d / inject_Z (Z.of_nat (length c)).

(** No ideal column has the length of the training column [c]. *)
Definition unmatched (self : TestDataMapper) (c : string) : Prop :=
  ∃ yc, df_col (train_data self) c = Some yc ∧
        ∀ d yd, d ∈ y_ideal_cols self → df_col (ideal_data self) d = Some yd →
                length yc ≠ length yd.

(** The reading under which the recorded error is the MSE itself. *)
Definition records_exact_mse (self : TestDataMapper) : Prop :=
  ∀ best_fits c d v yc yd,
    find_best_fit self = Some best_fits → (c, (Some d, v)) ∈ best_fits →
    df_col (train_data self) c = Some yc → df_col (ideal_data self) d = Some yd →
    ∃ q, v = Fin q ∧ q == MSE yc yd.

(** The reading under which a training curve without a candidate is left
    out of the result and harms nothing downstream. *)
Definition excludes_unmatched (self : TestDataMapper) : Prop :=
  ∀ c, c ∈ y_train_cols self → unmatched self c →
    (∃ best_fits, find_best_fit self = Some best_fits ∧ c ∉ best_fits.*1) ∧
    (compute_max_deviation self).1 = Ok ().




(** The assignments [m[k] = v] for the pairs of a list, in order. *)
Definition assign_all {V : Type} (m : gmap string V) (kvs : list (string * V))
  : gmap string V :=
  foldl (fun m kv => <[kv.1 := kv.2]> m) m kvs.

(** The object after the loop of [compute_max_deviation] has run over
    [items] and computed the deviations [kvs]. *)
Definition after_loop (self : TestDataMapper) (items : dict fit)
    (kvs : list (string * Q)) : TestDataMapper :=
  {| train_data := train_data self; ideal_data := ideal_data self;
     test_data := test_data self;
     max_deviation := assign_all (max_deviation self) kvs;
     selected_functions :=
       assign_all (selected_functions self) (map (fun item => (item.1, item.2.1)) items) |}.

(** The candidate [f] is examined for the test point [(x, y)]: the ideal
    table has a row at exactly [x]; [dev] is the deviation of the point
    from the first such row and [m] the maximum deviation of [f]. *)
Definition examined (self : TestDataMapper) (x y : Q) (f : option string)
    (dev m : Q) : Prop :=
  ∃ name xs ys y0 rest,
    f = Some name ∧
    df_col (ideal_data self) "x" = Some xs ∧
    df_col (ideal_data self) name = Some ys ∧
    loc xs ys x = y0 :: rest ∧
    dev = Qabs (y - y0) ∧
    max_deviation self !! name = Some m.

(** [f] is eligible: examined, with [dev <= sqrt(2) * max_deviation[f]]
    over the reals. *)
Definition eligible (self : TestDataMapper) (x y : Q) (f : option string)
    (dev : Q) : Prop :=
  ∃ m, examined self x y f dev m ∧ (Q2R dev <= sqrt 2 * Q2R m)%R.

(** [best] with deviation [d] is the first candidate of [funcs] of least
    deviation among the eligible ones; [None] with [inf] when no candidate
    is eligible. *)
Definition assigned_best (self : TestDataMapper) (funcs : list (option string))
    (x y : Q) (best : option string) (d : num) : Prop :=
  match best with
  | None => d = PInf ∧ ∀ f dev, f ∈ funcs → ¬ eligible self x y f dev
  | Some name =>
      ∃ (i : nat) dev,
        funcs !! i = Some (Some name) ∧
        eligible self x y (Some name) dev ∧
        d = Fin dev ∧
        ∀ (j : nat) g dev',
          funcs !! j = Some g → eligible self x y g dev' →
          dev <= dev' ∧ ((j < i)%nat → dev < dev')
  end.

(** The state in which [map_test_data] is meant to run: the ideal table
    has its [x] column, and every selected function is a column of the
    ideal table with a maximum deviation. *)
Definition ready (self : TestDataMapper) : Prop :=
  is_Some (df_col (ideal_data self) "x") ∧
  ∀ c f, selected_functions self !! c = Some f →
         ∃ name, f = Some name ∧
                 is_Some (df_col (ideal_data self) name) ∧
                 is_Some (max_deviation self !! name).

(** The row of a test point left without a function. *)
Definition unassigned (pt : Q * Q) : mapped_row :=
  {| row_x := pt.1; row_y_test := pt.2;
     row_deviation := PInf; row_ideal_function := None |}.


Module NoIdealX.
(** An ideal table without its [x] column. *)
Definition train : DataFrame := [("x", [0]); ("y1", [0])].
Definition ideal : DataFrame := [("y1", [0])].
Definition test : list (Q * Q) := [(0, 0)].
Definition mapper : TestDataMapper := init train ideal test.
Definition mapped : TestDataMapper := (compute_max_deviation mapper).2.
End NoIdealX.

(** ** The visualization module *)


(** What a legend entry is made of: the text of a literal label, or the
    three values formatted into the label of a best fit. *)
Inductive legend : Type :=
| LegendText (text : string)
| LegendFit (train_col : string) (ideal_col : option string) (mse : num)
| NoLegend.

(** A glyph added to a bokeh figure, with the data handed to it.  The
    calls of the plotting library are recorded, not modelled. *)
Inductive glyph : Type :=
| Scatter (xs ys : list Q) (color : string) (label : legend)
| Line (xs ys : list Q) (color : string) (label : legend).

(** The exceptions of the visualization: those of the mapper, and the
    [IndexError] of a list index out of range. *)
Inductive plot_exn : Type :=
| PlotError (e : exn)
| IndexError.

Inductive drawing : Type :=
| Drawn (glyphs : list glyph)
| Failed (e : plot_exn).

(** [colors] of [create_best_fit_visualization] *)
Definition colors : list string := ["navy"; "darkorange"; "darkgreen"; "crimson"].

(** The loop of [create_best_fit_visualization] over
    [enumerate(best_fits.items())], from index [i], on the glyphs [p]
    drawn so far. *)
Fixpoint best_fit_loop (training_df ideal_df : DataFrame) (i : nat)
    (items : dict fit) (p : list glyph) : drawing :=
  match items with
  | [] => Drawn p
  | (train_col, (ideal_col, mse)) :: rest =>
      match getitem training_df "x" with
      | Raise e => Failed (PlotError e)
      | Ok xs =>
      match getitem training_df train_col with
      | Raise e => Failed (PlotError e)
      | Ok ys =>
      match colors !! i with
      | None => Failed IndexError
      | Some color =>
      let p1 := p ++ [Scatter xs ys color (LegendFit train_col ideal_col mse)] in
      match getitem ideal_df "x" with
      | Raise e => Failed (PlotError e)
      | Ok ixs =>
      match f ← label ideal_col; getitem ideal_df f with
      | Raise e => Failed (PlotError e)
      | Ok iys =>
          best_fit_loop training_df ideal_df (S i) rest
                        (p1 ++ [Line ixs iys color NoLegend])
      end end end end end
  end.

(** [visualization.create_best_fit_visualization]: [best_fits.items()] of
    a [None] is an [AttributeError]. *)
Definition create_best_fit_visualization (training_df ideal_df : DataFrame)
    (best_fits : option (dict fit)) : drawing :=
  match best_fits with
  | None => Failed (PlotError AttributeError)
  | Some items => best_fit_loop training_df ideal_df 0 items []
  end.

(** A column of the frame built by [pd.DataFrame(results)]: a frame built
    from no row has no column. *)
Definition mapped_column (mapped_data : list mapped_row) (name : string)
    (field : mapped_row -> Q) : outcome (list Q) :=
  match mapped_data with
  | [] => Raise (KeyError (Some name))
  | _ => Ok (map field mapped_data)
  end.

(** One glyph of [create_mapped_data_visualization] on two columns of a
    table. *)
Definition curve_glyph (make : list Q -> list Q -> string -> legend -> glyph)
    (df : DataFrame) (col color text : string) : outcome glyph :=
  xs ← getitem df "x"; ys ← getitem df col;
  Ok (make xs ys color (LegendText text)).

(** [visualization.create_mapped_data_visualization] *)
Definition create_mapped_data_visualization (training_df ideal_df : DataFrame)
    (mapped_data : list mapped_row) : outcome (list glyph) :=
  t1 ← curve_glyph Scatter training_df "y1" "blue" "Training y1";
  t2 ← curve_glyph Scatter training_df "y2" "orange" "Training y2";
  t3 ← curve_glyph Scatter training_df "y3" "green" "Training y3";
  t4 ← curve_glyph Scatter training_df "y4" "red" "Training y4";
  i1 ← curve_glyph Line ideal_df "y42" "blue" "Ideal y42";
  i2 ← curve_glyph Line ideal_df "y41" "orange" "Ideal y41";
  i3 ← curve_glyph Line ideal_df "y11" "green" "Ideal y11";
  i4 ← curve_glyph Line ideal_df "y48" "red" "Ideal y48";
  mx ← mapped_column mapped_data "x" row_x;
  my ← mapped_column mapped_data "y_test" row_y_test;
  Ok [t1; t2; t3; t4; i1; i2; i3; i4;
      Scatter mx my "purple" (LegendText "Mapped Test Data")].

(** The tables of the assignment as far as the mapped-data plot reads
    them. *)
Definition plot_columns (training_df ideal_df : DataFrame) : Prop :=
  (∀ c, c ∈ ["x"; "y1"; "y2"; "y3"; "y4"] → is_Some (df_col training_df c)) ∧
  (∀ c, c ∈ ["x"; "y42"; "y41"; "y11"; "y48"] → is_Some (df_col ideal_df c)).

Module Assignment.
(** Tables with the columns of the assignment's data set that the plots
    name, one row each. *)
Definition train : DataFrame :=
  [("x", [0]); ("y1", [1]); ("y2", [2]); ("y3", [3]); ("y4", [4])].
Definition ideal : DataFrame :=
  [("x", [0]); ("y11", [3]); ("y41", [2]); ("y42", [1]); ("y48", [4])].
Definition test : list (Q * Q) := [(0, 1)].
End Assignment.

(** Two rows agree but for the function chosen among tied candidates:
    both are unassigned with [inf], or both are assigned with the same
    deviation. *)
Definition same_up_to_ties (r1 r2 : mapped_row) : Prop :=
  row_x r1 = row_x r2 ∧ row_y_test r1 = row_y_test r2 ∧
  match row_ideal_function r1, row_ideal_function r2 with
  | None, None => row_deviation r1 = PInf ∧ row_deviation r2 = PInf
  | Some _, Some _ =>
      ∃ d1 d2, row_deviation r1 = Fin d1 ∧ row_deviation r2 = Fin d2 ∧ d1 == d2
  | _, _ => False
  end.

Module Tie.
(** Two selected functions at the same distance from a test point. *)
Definition train : DataFrame := [("x", [0; 1]); ("y1", [0; 1]); ("y2", [0; 3])].
Definition ideal : DataFrame := [("x", [0; 1]); ("y1", [0; 0]); ("y2", [0; 2])].
Definition test : list (Q * Q) := [(1, 1)].
Definition mapper : TestDataMapper := init train ideal test.
Definition mapped : TestDataMapper := (compute_max_deviation mapper).2.
End Tie.

(** * Proofs *)

(** ** Facts about numbers *)

(** Linear arithmetic on rationals ([lra] alone is the one on reals). *)
Ltac qlra := Lqa.lra.

Lemma Qltb_lt (a b : Q) : Qltb a b = true <-> a < b.
Proof.
  unfold Qltb. rewrite negb_true_iff.
  split; intros H.
  - apply Qnot_le_lt. intros Hle. apply Qle_bool_iff in Hle. congruence.
  - destruct (Qle_bool b a) eqn:E; [|reflexivity].
    apply Qle_bool_iff in E. exfalso. eapply Qlt_not_le; eauto.
Qed.

Lemma Qle_bool_false (a b : Q) : Qle_bool a b = false <-> b < a.
Proof.
  rewrite <- Qltb_lt. unfold Qltb. destruct (Qle_bool a b); simpl; intuition congruence.
Qed.

Lemma num_ltb_Fin (p q : Q) : num_ltb (Fin p) (Fin q) = true <-> p < q.
Proof. apply Qltb_lt. Qed.

Lemma num_ltb_Fin_false (p q : Q) : num_ltb (Fin p) (Fin q) = false <-> q <= p.
Proof.
  simpl. unfold Qltb. rewrite negb_false_iff. apply Qle_bool_iff.
Qed.

Lemma sqrt2_sqr : (sqrt 2 * sqrt 2 = 2)%R.
Proof. apply sqrt_def. lra. Qed.

Lemma sqrt2_pos : (0 < sqrt 2)%R.
Proof. apply sqrt_lt_R0. lra. Qed.

(** The rational test decides the real inequality with the irrational
    constant. *)
Lemma Qle_sqrt2_mul_spec (d m : Q) :
  Qle_sqrt2_mul d m = true <-> (Q2R d <= sqrt 2 * Q2R m)%R.
Proof.
  pose proof sqrt2_sqr as Hs. pose proof sqrt2_pos as Hp.
  set (s := sqrt 2) in *.
  assert (Hsq : forall a b : Q,
             a * a <= 2 * (b * b) <-> (Q2R a * Q2R a <= 2 * (Q2R b * Q2R b))%R).
  { intros a b. split; intros H.
    - apply Qle_Rle in H. rewrite !Q2R_mult in H.
      replace (Q2R 2) with 2%R in H by (unfold Q2R; simpl; lra). exact H.
    - apply Rle_Qle. rewrite !Q2R_mult.
      replace (Q2R 2) with 2%R by (unfold Q2R; simpl; lra). exact H. }
  assert (Hsq' : forall a b : Q,
             2 * (b * b) <= a * a <-> (2 * (Q2R b * Q2R b) <= Q2R a * Q2R a)%R).
  { intros a b. split; intros H.
    - apply Qle_Rle in H. rewrite !Q2R_mult in H.
      replace (Q2R 2) with 2%R in H by (unfold Q2R; simpl; lra). exact H.
    - apply Rle_Qle. rewrite !Q2R_mult.
      replace (Q2R 2) with 2%R by (unfold Q2R; simpl; lra). exact H. }
  assert (H0 : Q2R 0 = 0%R) by (unfold Q2R; simpl; lra).
  unfold Qle_sqrt2_mul.
  destruct (Qle_bool 0 m) eqn:Em.
  - apply Qle_bool_iff, Qle_Rle in Em. rewrite H0 in Em.
    rewrite orb_true_iff, !Qle_bool_iff, Hsq.
    split.
    + intros [Hd | Hd].
      * apply Qle_Rle in Hd. rewrite H0 in Hd. nra.
      * destruct (Rle_dec (Q2R d) (s * Q2R m)) as [Hle | Hgt]; [exact Hle|].
        exfalso. apply Rnot_le_lt in Hgt.
        assert (0 <= s * Q2R m)%R by nra.
        assert ((s * Q2R m) * (s * Q2R m) < Q2R d * Q2R d)%R by nra.
        nra.
    + intros Hd. destruct (Rle_dec (Q2R d) 0) as [Hn | Hn].
      * left. apply Rle_Qle. rewrite H0. exact Hn.
      * right. nra.
  - apply Qle_bool_false, Qlt_Rlt in Em. rewrite H0 in Em.
    rewrite andb_true_iff, Qltb_lt, Qle_bool_iff, Hsq'.
    split.
    + intros [Hd Hq]. apply Qlt_Rlt in Hd. rewrite H0 in Hd.
      destruct (Rle_dec (Q2R d) (s * Q2R m)) as [Hle | Hgt]; [exact Hle|].
      exfalso. apply Rnot_le_lt in Hgt.
      assert (Hneg : (0 < - Q2R d < - (s * Q2R m))%R) by lra.
      assert ((- Q2R d) * (- Q2R d) < (- (s * Q2R m)) * (- (s * Q2R m)))%R by nra.
      nra.
    + intros Hle. split.
      * apply Rlt_Qlt. rewrite H0. nra.
      * assert (Hneg : (0 < - (s * Q2R m) <= - Q2R d)%R) by nra.
        assert ((- (s * Q2R m)) * (- (s * Q2R m)) <= (- Q2R d) * (- Q2R d))%R by nra.
        nra.
Qed.

(** [rint] is off by at most one half. *)
Lemma rint_close (q : Q) : Qabs (inject_Z (rint q) - q) <= 1 # 2.
Proof.
  unfold rint.
  pose proof (Qfloor_le q) as Hlo. pose proof (Qlt_floor q) as Hhi.
  set (f := Qfloor q) in *.
  assert (Hf1 : inject_Z (f + 1) == inject_Z f + 1)
    by (rewrite inject_Z_plus; reflexivity).
  rewrite Hf1 in Hhi. clearbody f.
  apply Qabs_Qle_condition.
  destruct (Qcompare (q - inject_Z f) (1 # 2)) eqn:E.
  - apply Qeq_alt in E.
    destruct (Z.even f); [|rewrite Hf1]; split; qlra.
  - apply Qlt_alt in E. split; qlra.
  - apply Qgt_alt in E. rewrite Hf1. split; qlra.
Qed.

(** Rounding to four decimals is off by at most half a unit of the
    fourth decimal. *)
Lemma round4_close (q : Q) : Qabs (round4 q - q) <= 1 # 20000.
Proof.
  unfold round4.
  pose proof (rint_close (q * 10000)) as H.
  apply Qabs_Qle_condition in H. apply Qabs_Qle_condition.
  set (z := inject_Z (rint (q * 10000))) in *. clearbody z.
  assert (Hz : z / 10000 == z * (1 # 10000)) by (unfold Qdiv; reflexivity).
  rewrite Hz. split; qlra.
Qed.

Lemma rint_inject_Z (z : Z) : rint (inject_Z z) = z.
Proof.
  unfold rint. rewrite Qfloor_Z.
  assert (E : Qcompare (inject_Z z - inject_Z z) (1 # 2) = Lt).
  { apply (proj1 (Qlt_alt _ _)). qlra. }
  rewrite E. reflexivity.
Qed.




Lemma sse_same_length (c d : list Q) :
  length c = length d -> sse c d = Ok (SSE c d).
Proof.
  intros H. unfold sse, np_sub. destruct (decide (length c = length d)); [|done].
  reflexivity.
Qed.

(** ** Facts about dictionaries *)

Section DictFacts.
Context {V : Type}.
Implicit Types (d : dict V) (k : string) (v : V).

Lemma dict_get_set d k v k' :
    dict_get (dict_set d k v) k' = if decide (k = k') then Some v else dict_get d k'.
  Proof.
    induction d as [|[k0 v0] d IH]; simpl.
    - reflexivity.
    - destruct (decide (k0 = k)) as [->|Hne]; simpl.
      + destruct (decide (k = k')); reflexivity.
      + rewrite IH. destruct (decide (k0 = k')) as [->|]; [|reflexivity].
        destruct (decide (k = k')); congruence.
  Qed.

Lemma dict_set_keys d k v k' :
    k' ∈ (dict_set d k v).*1 ↔ k' = k ∨ k' ∈ d.*1.
  Proof.
    induction d as [|[k0 v0] d IH]; simpl.
    - set_solver.
    - destruct (decide (k0 = k)) as [->|Hne]; simpl.
      + rewrite !elem_of_cons. tauto.
      + rewrite !elem_of_cons, IH. tauto.
  Qed.

Lemma dict_set_NoDup d k v : NoDup d.*1 → NoDup (dict_set d k v).*1.
  Proof.
    induction d as [|[k0 v0] d IH]; simpl; intros Hnd.
    - apply NoDup_singleton.
    - apply NoDup_cons in Hnd as [Hk0 Hnd].
      destruct (decide (k0 = k)) as [->|Hne]; simpl.
      + apply NoDup_cons; done.
      + apply NoDup_cons. split; [|auto].
        rewrite dict_set_keys. intros [->|?]; done.
  Qed.

Lemma dict_set_fresh d k v : k ∉ d.*1 → dict_set d k v = d ++ [(k, v)].
  Proof.
    induction d as [|[k0 v0] d IH]; simpl; intros Hk.
    - reflexivity.
    - apply not_elem_of_cons in Hk as [Hne Hk].
      destruct (decide (k0 = k)); [congruence|]. by rewrite IH.
  Qed.

Lemma dict_set_length d k v : length (dict_set d k v) ≤ S (length d).
  Proof.
    induction d as [|[k0 v0] d IH]; simpl; [lia|].
    destruct (decide (k0 = k)); simpl; lia.
  Qed.

Lemma dict_get_elem_of d k v : NoDup d.*1 → (k, v) ∈ d ↔ dict_get d k = Some v.
  Proof.
    induction d as [|[k0 v0] d IH]; simpl; intros Hnd.
    - split; [by intros ?%elem_of_nil | done].
    - apply NoDup_cons in Hnd as [Hk0 Hnd].
      rewrite elem_of_cons, IH by done.
      destruct (decide (k0 = k)) as [->|Hne].
      + split.
        * intros [[= ->]|Hget]; [done|].
          exfalso. apply Hk0. apply (IH Hnd) in Hget.
          apply list_elem_of_fmap. by exists (k, v).
        * intros [= ->]. by left.
      + split; [intros [[= ? ?]|?]; done | by right].
  Qed.

Lemma dict_get_Some_elem_of d k v : dict_get d k = Some v → (k, v) ∈ d.
  Proof.
    induction d as [|[k0 v0] d IH]; simpl; [done|].
    destruct (decide (k0 = k)) as [->|Hne].
    - intros [= ->]. apply elem_of_cons. by left.
    - intros H. apply elem_of_cons. right. auto.
  Qed.

Lemma dict_of_items_acc (acc l : list (string * V)) :
    NoDup (acc ++ l).*1 →
    foldl (fun d kv => dict_set d kv.1 kv.2) acc l = acc ++ l.
  Proof.
    revert acc. induction l as [|[k v] l IH]; intros acc Hnd; simpl.
    - by rewrite app_nil_r.
    - rewrite dict_set_fresh.
      + rewrite IH; rewrite <- app_assoc; done.
      + rewrite fmap_app in Hnd. apply NoDup_app in Hnd as (_ & Hdisj & _).
        intros Hin. apply (Hdisj k Hin). simpl. apply elem_of_cons. by left.
  Qed.

  (** [dict(items)] of items with distinct keys holds exactly these items,
      in their order. *)
Lemma dict_of_items_NoDup (l : list (string * V)) :
    NoDup l.*1 → dict_of_items l = l.
  Proof. intros H. unfold dict_of_items. by rewrite dict_of_items_acc. Qed.
End DictFacts.

(** ** Facts about [sorted] *)

Lemma num_le_trans (a b c : num) : num_le a b → num_le b c → num_le a c.
Proof.
  destruct a, b, c; simpl; try done. apply Qle_trans.
Qed.

Lemma num_le_refl (a : num) : a ≠ NaN → num_le a a.
Proof. destruct a; simpl; try done. intros _. apply Qle_refl. Qed.

Lemma num_ltb_le (a b : num) : num_ltb a b = true → num_le a b.
Proof.
  destruct a, b; simpl; try done. intros H%Qltb_lt. by apply Qlt_le_weak.
Qed.

Lemma num_ltb_false_le (a b : num) :
  a ≠ NaN → b ≠ NaN → num_ltb a b = false → num_le b a.
Proof.
  destruct a, b; simpl; try done.
  intros _ _ H. by apply num_ltb_Fin_false in H.
Qed.

Section SortedFacts.
Context {A : Type} (key : A → num).

Lemma insert_by_perm (x : A) (l : list A) : insert_by key x l ≡ₚ x :: l.
  Proof.
    induction l as [|y l IH]; simpl; [done|].
    destruct (num_ltb (key y) (key x)); [|done].
    rewrite IH. apply Permutation_swap.
  Qed.

Lemma py_sorted_perm (l : list A) : py_sorted key l ≡ₚ l.
  Proof.
    induction l as [|x l IH]; simpl; [done|].
    rewrite insert_by_perm. by rewrite IH.
  Qed.

Lemma insert_by_ascending (x : A) (l : list A) :
    key x ≠ NaN → Forall (fun y => key y ≠ NaN) l →
    ascending key l → ascending key (insert_by key x l).
  Proof.
    intros Hx Hl Hs. unfold ascending in *.
    induction l as [|y l IH]; simpl.
    - apply StronglySorted_cons. split; [constructor | constructor].
    - apply Forall_cons in Hl as [Hy Hl].
      apply StronglySorted_cons in Hs as [Hyl Hs].
      destruct (num_ltb (key y) (key x)) eqn:E.
      + apply StronglySorted_cons. split; [|auto].
        rewrite insert_by_perm. apply Forall_cons. split; [|done].
        by apply num_ltb_le.
      + assert (Hxy : num_le (key x) (key y)) by by apply num_ltb_false_le.
        apply StronglySorted_cons. split.
        * apply Forall_cons. split; [done|].
          eapply Forall_impl; [exact Hyl|]. simpl. intros z Hz.
          by eapply num_le_trans.
        * apply StronglySorted_cons. done.
  Qed.

Lemma py_sorted_ascending (l : list A) :
    Forall (fun y => key y ≠ NaN) l → ascending key (py_sorted key l).
  Proof.
    induction 1 as [|x l Hx Hl IH]; simpl.
    - constructor.
    - apply insert_by_ascending; [done| |done].
      by rewrite py_sorted_perm.
  Qed.

End SortedFacts.

(** ** Selection of the best fit *)

Arguments num_ltb : simpl never.
Arguments Qle_sqrt2_mul : simpl never.

(** One step of the exception monad, without unfolding anything else. *)
Ltac step_bind := cbv beta iota delta [mbind outcome_bind mret outcome_ret].

Lemma getitem_Ok (df : DataFrame) (col : string) (v : list Q) :
  getitem df col = Ok v ↔ df_col df col = Some v.
Proof. unfold getitem. destruct (df_col df col); split; congruence. Qed.

Lemma df_col_is_Some (df : DataFrame) (col : string) :
  col ∈ df.*1 → is_Some (df_col df col).
Proof.
  induction df as [|[name values] df IH]; simpl.
  - by intros ?%elem_of_nil.
  - intros Hin. destruct (decide (name = col)); [eauto|].
    apply elem_of_cons in Hin as [->|Hin]; [done|auto].
Qed.

(** Every name returned by [get_columns] is a column of the table. *)
Lemma get_columns_col (df : DataFrame) (prefix col : string) :
  col ∈ get_columns df prefix → is_Some (df_col df col).
Proof.
  unfold get_columns. intros Hin. apply df_col_is_Some.
  apply list_elem_of_In, filter_In in Hin as [Hin _].
  by apply list_elem_of_In.
Qed.

Lemma lookup_snoc_inv {A : Type} (l : list A) (x y : A) (j : nat) :
  (l ++ [x]) !! j = Some y →
  ((j < length l)%nat ∧ l !! j = Some y) ∨ (j = length l ∧ y = x).
Proof.
  intros [H | [Hle H]]%lookup_app_Some.
  - left. split; [|done]. by eapply lookup_lt_Some.
  - right. destruct (j - length l)%nat as [|n] eqn:E; simpl in H; [|done].
    split; [lia|congruence].
Qed.

(** A column of another length leaves the accumulator as it is. *)
Lemma first_min_skip ideal pre yc c yd best m :
  df_col ideal c = Some yd → length yc ≠ length yd →
  first_min ideal pre yc best m → first_min ideal (pre ++ [c]) yc best m.
Proof.
  intros Hc Hlen. destruct best as [d|]; simpl.
  - intros (i & yd0 & Hi & Hd & Hl & Hm & Hmin).
    exists i, yd0. split_and!; try done.
    + apply lookup_app_l_Some. done.
    + intros j d' yd' Hj Hd' Hl'.
      apply lookup_snoc_inv in Hj as [[_ Hj] | [_ ->]]; [eauto|].
      congruence.
  - intros [-> Hnone]. split; [done|].
    intros d yd' [Hin | ->%list_elem_of_singleton]%elem_of_app Hd; [eauto|].
    congruence.
Qed.

(** A column of strictly smaller SSE replaces the accumulator. *)
Lemma first_min_replace ideal pre yc c yd best m :
  df_col ideal c = Some yd → length yc = length yd →
  first_min ideal pre yc best m →
  num_ltb (Fin (SSE yc yd)) m = true →
  first_min ideal (pre ++ [c]) yc (Some c) (Fin (SSE yc yd)).
Proof.
  intros Hc Hlen Hinv Hlt. simpl.
  exists (length pre), yd. split_and!; try done.
  - by rewrite lookup_app_r, Nat.sub_diag by lia.
  - intros j d' yd' Hj Hd' Hl'.
    apply lookup_snoc_inv in Hj as [[Hjlt Hj] | [-> ->]].
    + assert (Hs : SSE yc yd < SSE yc yd'); [|split; [by apply Qlt_le_weak|done]].
      destruct best as [d|]; simpl in Hinv.
      * destruct Hinv as (i & yd0 & Hi & Hd & Hl & -> & Hmin).
        apply num_ltb_Fin in Hlt.
        destruct (Hmin j d' yd' Hj Hd' Hl') as [Hle _].
        eapply Qlt_le_trans; eauto.
      * destruct Hinv as [_ Hnone]. exfalso.
        eapply Hnone; [|exact Hd'|exact Hl'].
        apply list_elem_of_lookup. eauto.
    + assert (yd' = yd) as -> by congruence.
      split; [apply Qle_refl | lia].
Qed.

(** A column of the same or a larger SSE leaves the accumulator. *)
Lemma first_min_keep ideal pre yc c yd best m :
  df_col ideal c = Some yd → length yc = length yd →
  first_min ideal pre yc best m →
  num_ltb (Fin (SSE yc yd)) m = false →
  first_min ideal (pre ++ [c]) yc best m.
Proof.
  intros Hc Hlen Hinv Hlt.
  destruct best as [d|]; simpl in *.
  - destruct Hinv as (i & yd0 & Hi & Hd & Hl & -> & Hmin).
    apply num_ltb_Fin_false in Hlt.
    exists i, yd0. split_and!; try done.
    + by apply lookup_app_l_Some.
    + intros j d' yd' Hj Hd' Hl'.
      apply lookup_snoc_inv in Hj as [[_ Hj] | [-> ->]]; [eauto|].
      assert (yd' = yd) as -> by congruence.
      split; [done|]. intros Hji. apply lookup_lt_Some in Hi. lia.
  - destruct Hinv as [-> _]. done.
Qed.

Lemma scan_ideal_spec ideal yc cols : ∀ pre acc,
  (∀ d, d ∈ cols → is_Some (df_col ideal d)) →
  first_min ideal pre yc acc.2 acc.1 →
  ∃ r, scan_ideal ideal yc cols acc = Ok r ∧
       first_min ideal (pre ++ cols) yc r.2 r.1.
Proof.
  induction cols as [|c rest IH]; intros pre acc Hcols Hinv; simpl.
  - exists acc. by rewrite app_nil_r.
  - destruct (Hcols c) as [yd Hc]; [apply elem_of_cons; by left|].
    assert (Hrest : ∀ d, d ∈ rest → is_Some (df_col ideal d)).
    { intros d Hd. apply Hcols, elem_of_cons. by right. }
    rewrite (cons_middle c pre rest), app_assoc.
    unfold getitem. rewrite Hc. step_bind.
    destruct (decide (length yc ≠ length yd)) as [Hne | Heq].
    + apply IH; [done|]. by eapply first_min_skip.
    + assert (Hlen : length yc = length yd) by lia.
      rewrite sse_same_length by done. step_bind.
      destruct (num_ltb (Fin (SSE yc yd)) acc.1) eqn:E.
      * apply IH; [done|]. simpl. by eapply first_min_replace.
      * apply IH; [done|]. by eapply first_min_keep.
Qed.

Lemma select_loop_cons self c rest best_fits :
  select_loop self (c :: rest) best_fits =
  e ← select_one self c; select_loop self rest (dict_set best_fits c e).
Proof.
  unfold select_one. cbn [select_loop]. step_bind.
  destruct (getitem (train_data self) c) as [yc|]; [|done].
  destruct (scan_ideal _ _ _ _) as [r|]; [|done].
  destruct (div_len _ _); done.
Qed.

Lemma has_rows_col (df : DataFrame) (c : string) (yc : list Q) :
  has_rows df → df_col df c = Some yc → yc ≠ [].
Proof.
  induction 1 as [|[name values] df Hv _ IH]; simpl; [done|].
  destruct (decide (name = c)); [|done]. by intros [= <-].
Qed.

Lemma scan_ideal_first_min self yc :
  ∃ r, scan_ideal (ideal_data self) yc (y_ideal_cols self) (PInf, None) = Ok r ∧
       first_min (ideal_data self) (y_ideal_cols self) yc r.2 r.1.
Proof.
  destruct (scan_ideal_spec (ideal_data self) yc (y_ideal_cols self) [] (PInf, None))
    as (r & Hr & Hmin).
  - intros d Hd. by eapply get_columns_col.
  - simpl. split; [done|]. by intros d yd ?%elem_of_nil.
  - by exists r.
Qed.

Lemma select_one_inv self c e : select_one self c = Ok e → selected_entry self c e.
Proof.
  unfold select_one. step_bind.
  destruct (getitem (train_data self) c) as [yc|] eqn:Hyc; [|done].
  apply getitem_Ok in Hyc.
  destruct (scan_ideal_first_min self yc) as (r & -> & Hmin).
  destruct (div_len r.1 (length yc)) as [mse|] eqn:Hdiv; [|done].
  intros [= <-]. by exists yc, r.1, mse.
Qed.

Lemma select_one_total self c :
  has_rows (train_data self) → c ∈ y_train_cols self →
  ∃ e, select_one self c = Ok e.
Proof.
  intros Hrows Hc. unfold select_one. step_bind.
  destruct (get_columns_col _ _ _ Hc) as [yc Hyc].
  unfold getitem at 1. rewrite Hyc.
  destruct (scan_ideal_first_min self yc) as (r & -> & _).
  pose proof (has_rows_col _ _ _ Hrows Hyc) as Hne.
  destruct yc as [|y yc]; [done|]. simpl.
  destruct r.1; eauto.
Qed.

Lemma select_loop_spec self cols : ∀ best_fits,
  NoDup best_fits.*1 →
  (∀ k e, dict_get best_fits k = Some e → select_one self k = Ok e) →
  ∀ all_fits, select_loop self cols best_fits = Ok all_fits →
    NoDup all_fits.*1 ∧
    (∀ k, k ∈ all_fits.*1 ↔ k ∈ cols ∨ k ∈ best_fits.*1) ∧
    (∀ k e, dict_get all_fits k = Some e → select_one self k = Ok e).
Proof.
  induction cols as [|c rest IH]; intros best_fits Hnd Hget all_fits.
  - simpl. intros [= <-]. split_and!; [done| |done].
    intros k. rewrite elem_of_nil. tauto.
  - rewrite select_loop_cons. step_bind.
    destruct (select_one self c) as [e|] eqn:He; [|done].
    intros Hloop. apply IH in Hloop as (Hnd' & Hkeys & Hget').
    + split_and!; [done| |done].
      intros k. rewrite Hkeys, dict_set_keys, elem_of_cons. tauto.
    + by apply dict_set_NoDup.
    + intros k e'. rewrite dict_get_set.
      destruct (decide (c = k)) as [<-|]; [by intros [= <-]|auto].
Qed.

Lemma select_loop_total self cols : ∀ best_fits,
  (∀ c, c ∈ cols → ∃ e, select_one self c = Ok e) →
  ∃ all_fits, select_loop self cols best_fits = Ok all_fits.
Proof.
  induction cols as [|c rest IH]; intros best_fits Hcols.
  - by eexists.
  - rewrite select_loop_cons.
    destruct (Hcols c) as [e ->]; [apply elem_of_cons; by left|]. step_bind.
    apply IH. intros c' Hc'. apply Hcols, elem_of_cons. by right.
Qed.

(** The structure of a successful [find_best_fit]: the first four items of
    the stably sorted [best_fits], which holds one entry per training
    column. *)
Lemma find_best_fit_inv self best_fits :
  find_best_fit self = Some best_fits →
  ∃ all_fits,
    select_loop self (y_train_cols self) [] = Ok all_fits ∧
    best_fits = take 4 (py_sorted fit_key all_fits) ∧
    NoDup all_fits.*1 ∧
    (∀ c, c ∈ all_fits.*1 ↔ c ∈ y_train_cols self) ∧
    (∀ c e, (c, e) ∈ all_fits → select_one self c = Ok e).
Proof.
  unfold find_best_fit, find_best_fit_body. step_bind.
  destruct (select_loop self (y_train_cols self) []) as [all_fits|] eqn:Hloop; [|done].
  intros [= <-]. exists all_fits.
  apply select_loop_spec in Hloop as (Hnd & Hkeys & Hget);
    [|apply NoDup_nil_2|done].
  split_and!; try done.
  - apply dict_of_items_NoDup.
    apply (sublist_NoDup _ (py_sorted fit_key all_fits).*1).
    + by rewrite py_sorted_perm.
    + apply fmap_sublist, sublist_take.
  - intros c. rewrite Hkeys, elem_of_nil. tauto.
  - intros c e Hin. apply Hget. by apply dict_get_elem_of.
Qed.

(** With at least one row in the training table the selection raises
    nothing. *)
Lemma find_best_fit_total self :
  has_rows (train_data self) → ∃ best_fits, find_best_fit self = Some best_fits.
Proof.
  intros Hrows.
  destruct (select_loop_total self (y_train_cols self) []) as [all_fits Hloop].
  - intros c Hc. by apply select_one_total.
  - unfold find_best_fit, find_best_fit_body. rewrite Hloop. step_bind. eauto.
Qed.

Lemma div_len_pos (m : num) (n : nat) :
  (0 < n)%nat →
  div_len m n =
  Ok (match m with Fin q => Fin (q / inject_Z (Z.of_nat n)) | _ => m end).
Proof. intros Hn. destruct n as [|n]; [lia|]. by destruct m. Qed.

(** The two shapes of an entry of [best_fits] for a training column with
    rows: a first minimiser with its rounded MSE, or [(None, inf)]. *)
Lemma selected_entry_cases self c e :
  has_rows (train_data self) → selected_entry self c e →
  ∃ yc m,
    df_col (train_data self) c = Some yc ∧ yc ≠ [] ∧
    first_min (ideal_data self) (y_ideal_cols self) yc e.1 m ∧
    match e.1 with
    | None => e.2 = PInf
    | Some d =>
        ∃ yd, df_col (ideal_data self) d = Some yd ∧ length yc = length yd ∧
              e.2 = Fin (round4 (MSE yc yd))
    end.
Proof.
  intros Hrows (yc & m & mse & Hyc & Hmin & Hdiv & He).
  pose proof (has_rows_col _ _ _ Hrows Hyc) as Hne.
  exists yc, m. split_and!; try done.
  rewrite div_len_pos in Hdiv by (destruct yc; [done|simpl; lia]).
  injection Hdiv as <-.
  destruct e as [[d|] v]; simpl in *.
  - destruct Hmin as (i & yd & Hi & Hd & Hl & -> & _).
    exists yd. by rewrite He.
  - destruct Hmin as [-> _]. by rewrite He.
Qed.

Lemma selected_entry_not_NaN self c e :
  has_rows (train_data self) → selected_entry self c e → e.2 ≠ NaN.
Proof.
  intros Hrows He.
  destruct (selected_entry_cases _ _ _ Hrows He) as (yc & m & _ & _ & _ & Hcase).
  destruct e.1; [destruct Hcase as (yd & _ & _ & ->)|rewrite Hcase]; done.
Qed.

(** The entries returned by [find_best_fit] are entries of [best_fits]. *)
Lemma ranked_subseteq (all_fits : dict fit) :
  take 4 (py_sorted fit_key all_fits) ⊆ all_fits.
Proof.
  intros item Hin. apply subseteq_take in Hin.
  by rewrite py_sorted_perm in Hin.
Qed.

Lemma ranked_all (all_fits : dict fit) :
  (length all_fits ≤ 4)%nat → take 4 (py_sorted fit_key all_fits) ≡ₚ all_fits.
Proof.
  intros Hlen. rewrite take_ge; [apply py_sorted_perm|].
  by rewrite py_sorted_perm.
Qed.

(** [best_fits] holds at most one entry per training column. *)
Lemma all_fits_length self (all_fits : dict fit) :
  NoDup all_fits.*1 → (∀ c, c ∈ all_fits.*1 ↔ c ∈ y_train_cols self) →
  (length all_fits ≤ length (y_train_cols self))%nat.
Proof.
  intros Hnd Hkeys. rewrite <- (length_fmap fst all_fits).
  apply submseteq_length, NoDup_submseteq; [done|].
  intros c Hc. by apply Hkeys.
Qed.



(** ** Ranking *)

(** Whatever the tables, a returned mapping has at most 4 entries. *)
Lemma find_best_fit_at_most_4 self best_fits :
  find_best_fit self = Some best_fits → (length best_fits ≤ 4)%nat.
Proof.
  intros (all_fits & _ & -> & _)%find_best_fit_inv. rewrite length_take. lia.
Qed.



(** ** The recorded error *)

(** C7, as stated, fails: the recorded error of the fit with MSE 1/3 is
    0.3333. *)
Lemma exact_mse_fails : ¬ records_exact_mse Rounding.mapper.
Proof.
  intros H.
  destruct (H [("y1", (Some "y1", Fin (round4 (1 # 3))))]
              "y1" "y1" (Fin (round4 (1 # 3))) [0; 0; 1] [0; 0; 0])
    as (q & Hq & Heq); try reflexivity.
  - apply list_elem_of_singleton. reflexivity.
  - injection Hq as <-. revert Heq. vm_compute. discriminate.
Qed.

(** C7, amended.  For every entry with a selected ideal curve, the
    recorded error is the MSE rounded to four decimals (halves to even),
    which is within 0.00005 of the MSE. *)
Theorem find_best_fit_records_rounded_mse (self : TestDataMapper) :
  has_rows (train_data self) →
  ∃ best_fits,
    find_best_fit self = Some best_fits ∧
    ∀ c d v, (c, (Some d, v)) ∈ best_fits →
      ∃ yc yd,
        df_col (train_data self) c = Some yc ∧
        df_col (ideal_data self) d = Some yd ∧
        length yc = length yd ∧
        v = Fin (round4 (MSE yc yd)) ∧
        Qabs (round4 (MSE yc yd) - MSE yc yd) <= 1 # 20000.
Proof.
  intros Hrows.
  destruct (find_best_fit_total self Hrows) as [best_fits Hfit].
  destruct (find_best_fit_inv self best_fits Hfit)
    as (all_fits & Hloop & -> & Hnd & Hkeys & Hsel).
  eexists. split; [exact Hfit|].
  intros c d v Hin. apply ranked_subseteq, Hsel, select_one_inv in Hin.
  destruct (selected_entry_cases _ _ _ Hrows Hin)
    as (yc & m & Hyc & _ & _ & yd & Hyd & Hlen & Hv).
  simpl in Hv. exists yc, yd. split_and!; try done. apply round4_close.
Qed.

Lemma find_best_fit_records_rounded_mse_witness :
  has_rows (train_data Rounding.mapper) ∧
  ∃ best_fits,
    find_best_fit Rounding.mapper = Some best_fits ∧
    ∀ c d v, (c, (Some d, v)) ∈ best_fits →
      ∃ yc yd,
        df_col (train_data Rounding.mapper) c = Some yc ∧
        df_col (ideal_data Rounding.mapper) d = Some yd ∧
        length yc = length yd ∧
        v = Fin (round4 (MSE yc yd)) ∧
        Qabs (round4 (MSE yc yd) - MSE yc yd) <= 1 # 20000.
Proof.
  assert (H : has_rows (train_data Rounding.mapper))
    by (repeat constructor; done).
  split; [exact H | exact (find_best_fit_records_rounded_mse Rounding.mapper H)].
Defined.

(** ** Training curves without a candidate *)

Lemma Mismatch_unmatched : unmatched Mismatch.mapper "y1".
Proof.
  exists [0; 1; 2]. split; [reflexivity|].
  intros d yd Hd. vm_compute in Hd.
  apply list_elem_of_singleton in Hd as ->.
  intros [= <-]. simpl. lia.
Qed.

(** C3, as stated, fails on the shape-mismatch scenario: the entry
    [(None, inf)] of the curve is part of the returned mapping. *)
Lemma unmatched_not_excluded : ¬ excludes_unmatched Mismatch.mapper.
Proof.
  intros H.
  destruct (H "y1") as [(best_fits & Hfit & Hnot) _].
  - vm_compute. apply list_elem_of_singleton. reflexivity.
  - apply Mismatch_unmatched.
  - vm_compute in Hfit. injection Hfit as <-.
    apply Hnot. simpl. apply list_elem_of_singleton. reflexivity.
Qed.

(** On that scenario [compute_max_deviation] ends in the [KeyError] of
    [ideal_data[None]]. *)
Example Mismatch_compute_max_deviation :
  (compute_max_deviation Mismatch.mapper).1 = Raise (KeyError None).
Proof. reflexivity. Qed.

(** C3, amended.  For a training curve (with rows) without an ideal curve
    of its length, [find_best_fit] raises nothing and records the entry
    [(None, inf)]; the entry is ranked with the others, after the finite
    errors, and is returned when there are at most 4 training curves. *)
Theorem unmatched_curve_recorded (self : TestDataMapper) (c : string) :
  has_rows (train_data self) → c ∈ y_train_cols self → unmatched self c →
  ∃ best_fits all_fits,
    find_best_fit self = Some best_fits ∧
    select_loop self (y_train_cols self) [] = Ok all_fits ∧
    (c, (None, PInf)) ∈ all_fits ∧
    best_fits = take 4 (py_sorted fit_key all_fits) ∧
    ascending fit_key (py_sorted fit_key all_fits) ∧
    ((length (y_train_cols self) ≤ 4)%nat → (c, (None, PInf)) ∈ best_fits).
Proof.
  intros Hrows Hc (yc & Hyc & Hnone).
  destruct (find_best_fit_total self Hrows) as [best_fits Hfit].
  destruct (find_best_fit_inv self best_fits Hfit)
    as (all_fits & Hloop & -> & Hnd & Hkeys & Hsel).
  assert (Hin : (c, (None, PInf)) ∈ all_fits).
  { apply Hkeys, list_elem_of_fmap in Hc as ([c' [b v]] & -> & Hin).
    pose proof Hin as He. apply Hsel, select_one_inv in He.
    destruct (selected_entry_cases _ _ _ Hrows He)
      as (yc' & m & Hyc' & _ & Hmin & Hcase).
    simpl in *. assert (yc' = yc) as -> by congruence.
    destruct b as [d|].
    - destruct Hmin as (i & yd & Hi & Hd & Hl & _). exfalso.
      eapply Hnone; [|exact Hd|exact Hl].
      apply list_elem_of_lookup. eauto.
    - by rewrite <- Hcase. }
  eexists _, all_fits. split; [exact Hfit|]. split_and!; try done.
  - apply py_sorted_ascending, Forall_forall.
    intros [c' e] He. unfold fit_key. simpl.
    eapply selected_entry_not_NaN; [done|]. by apply select_one_inv, Hsel.
  - intros Hlen. rewrite ranked_all; [done|].
    etrans; [by apply (all_fits_length self)|done].
Qed.

Lemma unmatched_curve_recorded_witness :
  has_rows (train_data Mismatch.mapper) ∧
  "y1" ∈ y_train_cols Mismatch.mapper ∧
  unmatched Mismatch.mapper "y1" ∧
  ∃ best_fits all_fits,
    find_best_fit Mismatch.mapper = Some best_fits ∧
    select_loop Mismatch.mapper (y_train_cols Mismatch.mapper) [] = Ok all_fits ∧
    ("y1", (None, PInf)) ∈ all_fits ∧
    best_fits = take 4 (py_sorted fit_key all_fits) ∧
    ascending fit_key (py_sorted fit_key all_fits) ∧
    ((length (y_train_cols Mismatch.mapper) ≤ 4)%nat →
     ("y1", (None, PInf)) ∈ best_fits).
Proof.
  assert (H1 : has_rows (train_data Mismatch.mapper))
    by (repeat constructor; done).
  assert (H2 : "y1" ∈ y_train_cols Mismatch.mapper)
    by (vm_compute; apply list_elem_of_singleton; reflexivity).
  pose proof Mismatch_unmatched as H3.
  split_and!; [exact H1 | exact H2 | exact H3 |].
  exact (unmatched_curve_recorded Mismatch.mapper "y1" H1 H2 H3).
Defined.

(** ** The maximum deviation *)

Lemma assign_all_union {V : Type} (kvs : list (string * V)) : ∀ m : gmap string V,
  assign_all m kvs = list_to_map (reverse kvs) ∪ m.
Proof.
  unfold assign_all.
  induction kvs as [|[k v] kvs IH]; intros m; simpl.
  - by rewrite (left_id_L ∅ (∪)).
  - rewrite IH, reverse_cons, list_to_map_app. simpl.
    rewrite <- (assoc_L (∪)). f_equal.
    rewrite insert_empty. by rewrite <- insert_union_singleton_l.
Qed.



Lemma foldl_Qmax_spec (l : list Q) : ∀ x,
  (foldl Qmax x l == x ∨ ∃ e, e ∈ l ∧ foldl Qmax x l == e) ∧
  x <= foldl Qmax x l ∧ ∀ e, e ∈ l → e <= foldl Qmax x l.
Proof.
  induction l as [|y l IH]; intros x; simpl.
  - split_and!; [by left | apply Qle_refl | by intros e ?%elem_of_nil].
  - destruct (IH (Qmax x y)) as (Hin & Hle & Hall).
    assert (Hxy : x <= Qmax x y ∧ y <= Qmax x y ∧ (Qmax x y = x ∨ Qmax x y = y)).
    { unfold Qmax. destruct (Qle_bool x y) eqn:E.
      - apply Qle_bool_iff in E. split_and!; [done | apply Qle_refl | by right].
      - apply Qle_bool_false in E.
        split_and!; [apply Qle_refl | by apply Qlt_le_weak | by left]. }
    destruct Hxy as (Hx & Hy & Hcase).
    split_and!.
    + destruct Hin as [Heq | (e & He & Heq)].
      * destruct Hcase as [Hc | Hc].
        -- left. etrans; [exact Heq|]. by rewrite Hc.
        -- right. exists y. split; [apply elem_of_cons; by left|].
           etrans; [exact Heq|]. by rewrite Hc.
      * right. exists e. split; [apply elem_of_cons; by right | done].
    + by eapply Qle_trans.
    + intros e [-> | He]%elem_of_cons; [by eapply Qle_trans | auto].
Qed.

(** [np.max] returns an element that no element exceeds. *)
Lemma np_max_spec (l : list Q) (m : Q) :
  np_max l = Ok m →
  (∃ e, e ∈ l ∧ m == e) ∧ ∀ e, e ∈ l → e <= m.
Proof.
  destruct l as [|x l]; simpl; [done|]. intros [= <-].
  destruct (foldl_Qmax_spec l x) as (Hin & Hle & Hall). split.
  - destruct Hin as [Heq | (e & He & Heq)].
    + exists x. split; [apply elem_of_cons; by left | done].
    + exists e. split; [apply elem_of_cons; by right | done].
  - intros e [-> | He]%elem_of_cons; auto.
Qed.



Lemma pair_max_deviation_tables s1 s2 c b :
  train_data s1 = train_data s2 → ideal_data s1 = ideal_data s2 →
  pair_max_deviation s1 c b = pair_max_deviation s2 c b.
Proof. unfold pair_max_deviation. by intros -> ->. Qed.




Lemma after_loop_nil self : after_loop self [] [] = self.
Proof. by destruct self. Qed.

Lemma deviation_loop_inv items : ∀ self self',
  deviation_loop items self = (Ok (), self') →
  ∃ kvs,
    Forall2 (fun item kv => pair_max_deviation self item.1 item.2.1 = Ok kv)
            items kvs ∧
    self' = after_loop self items kvs.
Proof.
  induction items as [|[c [b v]] rest IH]; intros self self'; simpl.
  - intros [= <-]. exists []. split; [constructor | by rewrite after_loop_nil].
  - destruct (pair_max_deviation (set_selected self c b) c b) as [[f m]|] eqn:E;
      [|done].
    intros (kvs & Hkvs & ->)%IH. exists ((f, m) :: kvs). split; [|done].
    constructor; [exact E|].
    eapply Forall2_impl; [exact Hkvs|]. simpl. intros item kv <-.
    by apply pair_max_deviation_tables.
Qed.


Lemma pair_max_deviation_inv self c b f m :
  pair_max_deviation self c b = Ok (f, m) →
  b = Some f ∧
  ∃ yc yd diff,
    df_col (train_data self) c = Some yc ∧
    df_col (ideal_data self) f = Some yd ∧
    np_sub yc yd = Ok diff ∧ np_max (np_abs diff) = Ok m.
Proof.
  unfold pair_max_deviation. step_bind.
  destruct (getitem (train_data self) c) as [yc|] eqn:Hyc; [|done].
  destruct b as [d|]; [|done]. simpl.
  destruct (getitem (ideal_data self) d) as [yd|] eqn:Hyd; [|done].
  destruct (np_sub yc yd) as [diff|] eqn:Hsub; [|done].
  destruct (np_max (np_abs diff)) as [m'|] eqn:Hmax; [|done].
  intros [= <- <-]. apply getitem_Ok in Hyc, Hyd.
  split; [done|]. by exists yc, yd, diff.
Qed.

Lemma np_sub_same_length (a b : list Q) :
  length a = length b → np_sub a b = Ok (zip_with Qminus a b).
Proof. intros H. unfold np_sub. by destruct (decide (length a = length b)). Qed.

Lemma pair_max_deviation_total self c d yc yd :
  df_col (train_data self) c = Some yc → df_col (ideal_data self) d = Some yd →
  yc ≠ [] → length yc = length yd →
  ∃ m, pair_max_deviation self c (Some d) = Ok (d, m).
Proof.
  intros Hyc Hyd Hne Hlen. unfold pair_max_deviation, getitem.
  rewrite Hyc. simpl. rewrite Hyd. step_bind.
  rewrite np_sub_same_length by done. step_bind.
  destruct yc as [|a yc]; [done|]. destruct yd as [|b yd]; [done|].
  simpl. eauto.
Qed.






(** ** Assignment of the test points *)

Lemma examined_unique self x y f dev m dev' m' :
  examined self x y f dev m → examined self x y f dev' m' → dev = dev' ∧ m = m'.
Proof.
  intros (n & xs & ys & y0 & r & -> & Hx & Hy & Hloc & -> & Hm)
         (n' & xs' & ys' & y0' & r' & [= <-] & Hx' & Hy' & Hloc' & -> & Hm').
  assert (xs' = xs) as -> by congruence. assert (ys' = ys) as -> by congruence.
  rewrite Hloc in Hloc'. injection Hloc' as <- <-. split; congruence.
Qed.

Lemma eligible_unique self x y f dev dev' :
  eligible self x y f dev → eligible self x y f dev' → dev = dev'.
Proof.
  intros (m & He & _) (m' & He' & _).
  by destruct (examined_unique _ _ _ _ _ _ _ _ He He').
Qed.

(** A candidate that is not eligible leaves the accumulator as it is. *)
Lemma assigned_best_skip self pre x y f best d :
  (∀ dev, ¬ eligible self x y f dev) →
  assigned_best self pre x y best d → assigned_best self (pre ++ [f]) x y best d.
Proof.
  intros Hnot. destruct best as [name|]; simpl.
  - intros (i & dev & Hi & Hel & Hd & Hmin).
    exists i, dev. split_and!; try done.
    + by apply lookup_app_l_Some.
    + intros j g dev' Hj Hg.
      apply lookup_snoc_inv in Hj as [[_ Hj] | [_ ->]]; [eauto|].
      by destruct (Hnot dev').
  - intros [-> Hnone]. split; [done|].
    intros g dev [Hin | ->%list_elem_of_singleton]%elem_of_app; [eauto|done].
Qed.

(** An eligible candidate of strictly smaller deviation replaces it. *)
Lemma assigned_best_replace self pre x y name dev best d :
  eligible self x y (Some name) dev →
  assigned_best self pre x y best d →
  num_ltb (Fin dev) d = true →
  assigned_best self (pre ++ [Some name]) x y (Some name) (Fin dev).
Proof.
  intros Hel Hinv Hlt. simpl.
  exists (length pre), dev. split_and!; try done.
  - by rewrite lookup_app_r, Nat.sub_diag by lia.
  - intros j g dev' Hj Hg.
    apply lookup_snoc_inv in Hj as [[Hjlt Hj] | [-> ->]].
    + assert (Hs : dev < dev'); [|split; [by apply Qlt_le_weak|done]].
      destruct best as [old|]; simpl in Hinv.
      * destruct Hinv as (i & dev0 & Hi & _ & -> & Hmin).
        apply num_ltb_Fin in Hlt.
        destruct (Hmin j g dev' Hj Hg) as [Hle _].
        eapply Qlt_le_trans; eauto.
      * destruct Hinv as [_ Hnone]. exfalso.
        eapply Hnone; [|exact Hg]. apply list_elem_of_lookup. eauto.
    + rewrite (eligible_unique _ _ _ _ _ _ Hg Hel).
      split; [apply Qle_refl | lia].
Qed.

(** An eligible candidate of the same or a larger deviation leaves it. *)
Lemma assigned_best_keep self pre x y name dev best d :
  eligible self x y (Some name) dev →
  assigned_best self pre x y best d →
  num_ltb (Fin dev) d = false →
  assigned_best self (pre ++ [Some name]) x y best d.
Proof.
  intros Hel Hinv Hlt.
  destruct best as [old|]; simpl in *.
  - destruct Hinv as (i & dev0 & Hi & Hel0 & -> & Hmin).
    apply num_ltb_Fin_false in Hlt.
    exists i, dev0. split_and!; try done.
    + by apply lookup_app_l_Some.
    + intros j g dev' Hj Hg.
      apply lookup_snoc_inv in Hj as [[_ Hj] | [-> ->]]; [eauto|].
      rewrite (eligible_unique _ _ _ _ _ _ Hg Hel).
      split; [done|]. intros Hji. apply lookup_lt_Some in Hi. lia.
  - destruct Hinv as [-> _]. done.
Qed.

Lemma scan_selected_spec self x y funcs : ∀ pre acc,
  is_Some (df_col (ideal_data self) "x") →
  (∀ f, f ∈ funcs →
        ∃ name, f = Some name ∧
                is_Some (df_col (ideal_data self) name) ∧
                is_Some (max_deviation self !! name)) →
  assigned_best self pre x y acc.1 acc.2 →
  ∃ r, scan_selected self x y funcs acc = Ok r ∧
       assigned_best self (pre ++ funcs) x y r.1 r.2.
Proof.
  induction funcs as [|f rest IH]; intros pre acc [xs Hxs] Hfuncs Hinv.
  - exists acc. by rewrite app_nil_r.
  - destruct (Hfuncs f) as (name & -> & [ys Hys] & [m Hm]);
      [apply elem_of_cons; by left|].
    assert (Hrest : ∀ f, f ∈ rest →
               ∃ name, f = Some name ∧
                       is_Some (df_col (ideal_data self) name) ∧
                       is_Some (max_deviation self !! name)).
    { intros g Hg. apply Hfuncs, elem_of_cons. by right. }
    rewrite (cons_middle (Some name) pre rest), app_assoc.
    cbn [scan_selected]. unfold getitem, label, max_deviation_at.
    rewrite Hxs. step_bind. rewrite Hys. step_bind.
    destruct (loc xs ys x) as [|y0 more] eqn:Hloc.
    + apply IH; [by eexists|done|].
      apply assigned_best_skip; [|done].
      intros dev (m' & (n & xs' & ys' & y0 & r & [= <-] & Hx' & Hy' & Hloc' & _) & _).
      congruence.
    + rewrite Hm. step_bind.
      assert (Hex : examined self x y (Some name) (Qabs (y - y0)) m).
      { by exists name, xs, ys, y0, more. }
      destruct (Qle_sqrt2_mul (Qabs (y - y0)) m) eqn:Hle.
      * assert (Hel : eligible self x y (Some name) (Qabs (y - y0))).
        { exists m. split; [done|]. by apply Qle_sqrt2_mul_spec. }
        destruct (num_ltb (Fin (Qabs (y - y0))) acc.2) eqn:Hlt; simpl.
        -- apply IH; [by eexists|done|]. simpl.
           by eapply assigned_best_replace.
        -- apply IH; [by eexists|done|]. by eapply assigned_best_keep.
      * simpl. apply IH; [by eexists|done|].
        apply assigned_best_skip; [|done].
        intros dev (m' & Hex' & Hreal).
        destruct (examined_unique _ _ _ _ _ _ _ _ Hex' Hex) as [-> ->].
        apply Qle_sqrt2_mul_spec in Hreal. congruence.
Qed.

Lemma mapM_outcome_Forall2 {A B : Type} (f : A → outcome B) (P : A → B → Prop)
    (l : list A) :
  (∀ a, a ∈ l → ∃ b, f a = Ok b ∧ P a b) →
  ∃ k, mapM f l = Ok k ∧ Forall2 P l k.
Proof.
  induction l as [|a l IH]; intros Hl.
  - exists []. split; [done|constructor].
  - destruct (Hl a) as (b & Hfa & Hb); [apply elem_of_cons; by left|].
    destruct IH as (k & Hk & Hall).
    { intros a' Ha'. apply Hl, elem_of_cons. by right. }
    exists (b :: k). split; [|by constructor].
    change (mapM f (a :: l)) with (y ← f a; k ← mapM f l; mret (y :: k)).
    by rewrite Hfa, Hk.
Qed.

(** In a ready state [map_test_data] returns one row per test point, in
    order, each with the first eligible candidate of least deviation. *)
Lemma map_test_data_spec self funcs :
  ready self → set_order self funcs →
  ∃ rows,
    map_test_data self funcs = Ok rows ∧
    Forall2 (fun pt row =>
               row_x row = pt.1 ∧ row_y_test row = pt.2 ∧
               assigned_best self funcs pt.1 pt.2
                 (row_ideal_function row) (row_deviation row))
            (test_data self) rows.
Proof.
  intros [Hx Hsel] [_ Hfuncs].
  apply mapM_outcome_Forall2. intros [x y] _. unfold map_row. simpl.
  destruct (scan_selected_spec self x y funcs [] (None, PInf)) as (r & -> & Hr).
  - done.
  - intros f [c Hc]%Hfuncs. eauto.
  - simpl. split; [done|]. by intros f dev ?%elem_of_nil.
  - step_bind. by eexists.
Qed.

Lemma assign_all_lookup_inv {V : Type} (kvs : list (string * V))
    (m : gmap string V) (k : string) (v : V) :
  assign_all m kvs !! k = Some v → (k, v) ∈ kvs ∨ m !! k = Some v.
Proof.
  rewrite assign_all_union. intros [H | [_ H]]%lookup_union_Some_raw; [|by right].
  left. apply elem_of_list_to_map_2 in H. by rewrite elem_of_reverse in H.
Qed.

Lemma assign_all_is_Some {V : Type} (kvs : list (string * V))
    (m : gmap string V) (k : string) (v : V) :
  (k, v) ∈ kvs → is_Some (assign_all m kvs !! k).
Proof.
  intros Hin. rewrite assign_all_union.
  destruct ((list_to_map (reverse kvs) : gmap string V) !! k) as [v'|] eqn:E.
  - exists v'. by apply lookup_union_Some_l.
  - exfalso. apply not_elem_of_list_to_map_2 in E. apply E.
    apply list_elem_of_fmap. exists (k, v). split; [done|].
    by rewrite elem_of_reverse.
Qed.

(** After a successful [compute_max_deviation] on a fresh object, the
    object is ready for [map_test_data]. *)
Lemma compute_max_deviation_ready train ideal test self' :
  is_Some (df_col ideal "x") →
  compute_max_deviation (init train ideal test) = (Ok (), self') →
  ready self'.
Proof.
  intros Hx. unfold compute_max_deviation.
  destruct (find_best_fit (init train ideal test)) as [best_fits|]; [|done].
  intros (kvs & Hkvs & ->)%deviation_loop_inv.
  split; [done|]. simpl. intros c f Hc.
  apply assign_all_lookup_inv in Hc as [Hin | Hc]; [|by rewrite lookup_empty in Hc].
  apply list_elem_of_fmap in Hin as ([c' [b v]] & [= <- <-] & Hin).
  apply list_elem_of_lookup in Hin as [i Hi].
  destruct (Forall2_lookup_l _ _ _ _ _ Hkvs Hi) as ([name m] & Hkv & Hpair).
  simpl in Hpair.
  apply pair_max_deviation_inv in Hpair as (-> & yc & yd & diff & _ & Hyd & _).
  exists name. split_and!; [done|by eexists|].
  apply (assign_all_is_Some _ _ _ m). apply list_elem_of_lookup. eauto.
Qed.

Lemma Scenario_mapped_ready : ready Scenario.mapped.
Proof.
  apply (compute_max_deviation_ready Scenario.train Scenario.ideal Scenario.test).
  - by eexists.
  - reflexivity.
Qed.

Lemma Scenario_mapped_order : set_order Scenario.mapped [Some "y1"].
Proof.
  assert (Hsel : selected_functions Scenario.mapped = {["y1" := Some "y1"]})
    by (vm_compute; reflexivity).
  split.
  - apply NoDup_singleton.
  - intros f. rewrite Hsel, list_elem_of_singleton. split.
    + intros ->. exists "y1". apply lookup_singleton_eq.
    + intros [c Hc]. apply lookup_singleton_Some in Hc as [_ <-]. done.
Qed.




(** ** Test points without an eligible candidate *)




(** ** Mapping before the deviations are computed *)

Lemma set_order_fresh train ideal test funcs :
  set_order (init train ideal test) funcs → funcs = [].
Proof.
  intros [_ Hfuncs]. destruct funcs as [|f funcs]; [done|].
  destruct (proj1 (Hfuncs f)) as [c Hc]; [apply elem_of_cons; by left|].
  simpl in Hc. by rewrite lookup_empty in Hc.
Qed.

Lemma map_test_data_no_funcs self :
  map_test_data self [] = Ok (map unassigned (test_data self)).
Proof.
  unfold map_test_data. induction (test_data self) as [|pt pts IH]; [done|].
  change (mapM (map_row self []) (pt :: pts))
    with (y ← map_row self [] pt; k ← mapM (map_row self []) pts; mret (y :: k)).
  by rewrite IH.
Qed.

(** C9.  On a fresh object, as [load_data] of the visualization calls it,
    [map_test_data] raises nothing and returns every test point without a
    function and with the deviation [inf]: the set of selected functions
    is empty. *)
Theorem map_before_deviation (train ideal : DataFrame) (test : list (Q * Q))
    (funcs : list (option string)) :
  set_order (init train ideal test) funcs →
  funcs = [] ∧
  map_test_data (init train ideal test) funcs = Ok (map unassigned test).
Proof.
  intros ->%set_order_fresh. split; [done|]. apply map_test_data_no_funcs.
Qed.

Lemma map_before_deviation_witness :
  set_order Scenario.mapper [] ∧
  ([] : list (option string)) = [] ∧
  map_test_data Scenario.mapper [] = Ok (map unassigned Scenario.test).
Proof.
  assert (H : set_order Scenario.mapper []).
  { split; [apply NoDup_nil_2|]. intros f. split.
    - by intros ?%elem_of_nil.
    - intros [c Hc]. simpl in Hc. by rewrite lookup_empty in Hc. }
  split; [exact H|].
  exact (map_before_deviation Scenario.train Scenario.ideal Scenario.test [] H).
Defined.

(** ** The tables *)

Lemma deviation_loop_frame items : ∀ self,
  train_data (deviation_loop items self).2 = train_data self ∧
  ideal_data (deviation_loop items self).2 = ideal_data self ∧
  test_data (deviation_loop items self).2 = test_data self.
Proof.
  induction items as [|[c [b v]] rest IH]; intros self; simpl; [done|].
  destruct (pair_max_deviation _ c b) as [[f m]|]; [|done].
  destruct (IH (set_max_deviation (set_selected self c b) f m)) as (-> & -> & ->).
  done.
Qed.

Lemma run_call_frame (c : call) (self : TestDataMapper) :
  train_data (run_call c self) = train_data self ∧
  ideal_data (run_call c self) = ideal_data self ∧
  test_data (run_call c self) = test_data self.
Proof.
  destruct c; simpl; try done.
  unfold compute_max_deviation.
  destruct (find_best_fit self); [apply deviation_loop_frame | done].
Qed.

(** C8.  After any sequence of calls of [find_best_fit],
    [compute_max_deviation] and [map_test_data], whether they return or
    raise, the three tables of the object are the ones it was built
    with. *)
Theorem tables_never_mutated (cs : list call) (self : TestDataMapper) :
  train_data (run_calls cs self) = train_data self ∧
  ideal_data (run_calls cs self) = ideal_data self ∧
  test_data (run_calls cs self) = test_data self.
Proof.
  unfold run_calls. revert self.
  induction cs as [|c cs IH]; intros self; simpl; [done|].
  destruct (IH (run_call c self)) as (-> & -> & ->).
  apply run_call_frame.
Qed.

(** ** Exceptions of the selection *)

(** C10.  When the body of [find_best_fit] raises, [find_best_fit] itself
    returns [None]; [compute_max_deviation], which iterates the result
    without a test, then ends in an [AttributeError] and leaves the object
    as it was. *)
Theorem find_best_fit_catches (self : TestDataMapper) (e : exn) :
  find_best_fit_body self = Raise e →
  find_best_fit self = None ∧
  compute_max_deviation self = (Raise AttributeError, self).
Proof.
  intros H. unfold compute_max_deviation, find_best_fit. by rewrite H.
Qed.

Lemma find_best_fit_catches_witness :
  find_best_fit_body EmptyTrain.mapper = Raise ZeroDivisionError ∧
  find_best_fit EmptyTrain.mapper = None ∧
  compute_max_deviation EmptyTrain.mapper = (Raise AttributeError, EmptyTrain.mapper).
Proof.
  assert (H : find_best_fit_body EmptyTrain.mapper = Raise ZeroDivisionError)
    by reflexivity.
  split; [exact H|].
  exact (find_best_fit_catches EmptyTrain.mapper ZeroDivisionError H).
Defined.

(** Without an exception in the body the dictionary is returned. *)
Lemma find_best_fit_returns (self : TestDataMapper) (best_fits : dict fit) :
  find_best_fit_body self = Ok best_fits → find_best_fit self = Some best_fits.
Proof. intros H. unfold find_best_fit. by rewrite H. Qed.

(** ** The tables of the repository's tests *)

(** [test_find_best_fit]: a dictionary of two entries; both training
    curves select the ideal curve [y2]. *)
Example Fixture_find_best_fit :
  find_best_fit Fixture.mapper =
  Some [("y1", (Some "y2", Fin (round4 0)));
        ("y2", (Some "y2", Fin (round4 (1 # 100))))].
Proof. vm_compute. reflexivity. Qed.

(** [test_compute_max_deviation]: the call returns and [max_deviation] is
    not empty; its one entry is the 0.1 of the pair handled last. *)
Example Fixture_compute_max_deviation :
  (compute_max_deviation Fixture.mapper).1 = Ok () ∧
  ∃ m, max_deviation Fixture.mapped !! "y2" = Some m ∧ m == 1 # 10.
Proof.
  split; [reflexivity|]. eexists. split; [vm_compute; reflexivity|].
  vm_compute. reflexivity.
Qed.

(** [test_map_test_data]: three rows. *)
Example Fixture_map_test_data :
  length <$> (match map_test_data Fixture.mapped [Some "y2"] with
              | Ok rows => Some rows
              | Raise _ => None
              end) = Some 3%nat.
Proof. vm_compute. reflexivity. Qed.

(** * Further properties of the code *)

(** ** Rows of [map_test_data] *)

Lemma mapM_outcome_inv {A B : Type} (f : A → outcome B) (l : list A) : ∀ k,
  mapM f l = Ok k → Forall2 (fun a b => f a = Ok b) l k.
Proof.
  induction l as [|a l IH]; intros k.
  - intros [= <-]. constructor.
  - change (mapM f (a :: l)) with (y ← f a; k ← mapM f l; mret (y :: k)).
    step_bind. destruct (f a) as [b|] eqn:Hb; [|done].
    destruct (mapM f l) as [k'|]; [|done].
    intros [= <-]. constructor; [done|]. by apply IH.
Qed.

Lemma map_row_copies self funcs pt row :
  map_row self funcs pt = Ok row → row_x row = pt.1 ∧ row_y_test row = pt.2.
Proof.
  unfold map_row. step_bind.
  destruct (scan_selected _ _ _ _ _); [|done]. by intros [= <-].
Qed.

(** X1.  Whatever the state of the object and the iteration order,
    a frame returned by [map_test_data] has one row per test point, in the
    order of the test points, with [x] and [y_test] copied from the
    point. *)
Theorem map_test_data_rows_aligned (self : TestDataMapper)
    (funcs : list (option string)) (rows : list mapped_row) :
  map_test_data self funcs = Ok rows →
  length rows = length (test_data self) ∧
  Forall2 (fun pt row => row_x row = pt.1 ∧ row_y_test row = pt.2)
          (test_data self) rows.
Proof.
  intros H%mapM_outcome_inv.
  split; [symmetry; by eapply Forall2_length|].
  eapply Forall2_impl; [exact H|]. intros pt row. apply map_row_copies.
Qed.

Lemma map_test_data_rows_aligned_witness :
  map_test_data Scenario.mapped [Some "y1"] =
    Ok [ {| row_x := 1; row_y_test := 1;
            row_deviation := Fin (Qabs (1 - 1)); row_ideal_function := Some "y1" |};
         unassigned (1, 5) ] ∧
  length [ {| row_x := 1; row_y_test := 1;
              row_deviation := Fin (Qabs (1 - 1)); row_ideal_function := Some "y1" |};
           unassigned (1, 5) ] = length (test_data Scenario.mapped) ∧
  Forall2 (fun pt row => row_x row = pt.1 ∧ row_y_test row = pt.2)
          (test_data Scenario.mapped)
          [ {| row_x := 1; row_y_test := 1;
               row_deviation := Fin (Qabs (1 - 1)); row_ideal_function := Some "y1" |};
            unassigned (1, 5) ].
Proof.
  assert (H : map_test_data Scenario.mapped [Some "y1"] =
    Ok [ {| row_x := 1; row_y_test := 1;
            row_deviation := Fin (Qabs (1 - 1)); row_ideal_function := Some "y1" |};
         unassigned (1, 5) ]) by (vm_compute; reflexivity).
  split; [exact H|].
  exact (map_test_data_rows_aligned Scenario.mapped [Some "y1"] _ H).
Defined.

(** ** Sign of the maximum deviations *)

Lemma np_max_abs_nonneg (diff : list Q) (m : Q) :
  np_max (np_abs diff) = Ok m → 0 <= m.
Proof.
  intros [(e & He & Heq) _]%np_max_spec.
  unfold np_abs in He. apply list_elem_of_fmap in He as (z & -> & _).
  rewrite Heq. apply Qabs_nonneg.
Qed.

Lemma pair_max_deviation_nonneg self c b f m :
  pair_max_deviation self c b = Ok (f, m) → 0 <= m.
Proof.
  intros (_ & yc & yd & diff & _ & _ & _ & Hmax)%pair_max_deviation_inv.
  by eapply np_max_abs_nonneg.
Qed.

Lemma deviation_loop_nonneg items : ∀ self,
  (∀ k m, max_deviation self !! k = Some m → 0 <= m) →
  ∀ k m, max_deviation (deviation_loop items self).2 !! k = Some m → 0 <= m.
Proof.
  induction items as [|[c [b v]] rest IH]; intros self Hself; simpl; [done|].
  destruct (pair_max_deviation _ c b) as [[f m0]|] eqn:E; [|done].
  apply IH. simpl. intros k m. rewrite lookup_insert.
  destruct (decide (f = k)) as [<-|]; [|apply Hself].
  intros [= <-]. by eapply pair_max_deviation_nonneg.
Qed.

(** X2.  [compute_max_deviation] keeps the maximum deviations
    non-negative: if they are so before the call (as on a fresh object,
    where there is none), they are so after it, whether the call returns
    or raises midway. *)
Theorem max_deviation_nonneg (self : TestDataMapper) :
  (∀ k m, max_deviation self !! k = Some m → 0 <= m) →
  ∀ k m, max_deviation (compute_max_deviation self).2 !! k = Some m → 0 <= m.
Proof.
  intros Hself. unfold compute_max_deviation.
  destruct (find_best_fit self); [by apply deviation_loop_nonneg | done].
Qed.

Lemma Fixture_fresh_nonneg :
  ∀ k m, max_deviation Fixture.mapper !! k = Some m → 0 <= m.
Proof. intros k m H. simpl in H. by rewrite lookup_empty in H. Qed.

Lemma max_deviation_nonneg_witness :
  (∀ k m, max_deviation Fixture.mapper !! k = Some m → 0 <= m) ∧
  ∀ k m, max_deviation (compute_max_deviation Fixture.mapper).2 !! k = Some m → 0 <= m.
Proof.
  split; [exact Fixture_fresh_nonneg|].
  exact (max_deviation_nonneg Fixture.mapper Fixture_fresh_nonneg).
Defined.

(** ** Exact matches, unknown abscissas, a missing [x] column *)

Lemma examined_dev_nonneg self x y f dev m : examined self x y f dev m → 0 <= dev.
Proof.
  intros (n & xs & ys & y0 & r & _ & _ & _ & _ & -> & _). apply Qabs_nonneg.
Qed.



(** X3.  In a ready state with non-negative maximum deviations, a test
    point that lies exactly on a selected ideal curve (deviation 0 from
    it) is always assigned, and the row holds a deviation of 0. *)
Theorem exact_match_assigned (self : TestDataMapper) (funcs : list (option string)) :
  ready self → set_order self funcs →
  (∀ k m, max_deviation self !! k = Some m → 0 <= m) →
  ∃ rows,
    map_test_data self funcs = Ok rows ∧
    Forall2 (fun pt row =>
               ∀ f dev m, f ∈ funcs → examined self pt.1 pt.2 f dev m → dev == 0 →
                 ∃ g d, row_ideal_function row = Some g ∧
                        row_deviation row = Fin d ∧ d == 0)
            (test_data self) rows.
Proof.
  intros Hready Horder Hnonneg.
  destruct (map_test_data_spec self funcs Hready Horder) as (rows & Hrows & Hall).
  exists rows. split; [done|].
  eapply Forall2_impl; [exact Hall|]. simpl.
  intros pt row (_ & _ & Hbest) f dev m Hf Hex Hdev.
  assert (Hel : eligible self pt.1 pt.2 f dev).
  { exists m. split; [done|]. apply Qle_sqrt2_mul_spec. unfold Qle_sqrt2_mul.
    assert (Hm : 0 <= m).
    { destruct Hex as (n & _ & _ & _ & _ & _ & _ & _ & _ & _ & Hm). eauto. }
    apply Qle_bool_iff in Hm. rewrite Hm.
    apply orb_true_iff. left. apply Qle_bool_iff. rewrite Hdev. apply Qle_refl. }
  destruct (row_ideal_function row) as [g|]; simpl in Hbest.
  - destruct Hbest as (i & d & Hi & (m' & Hex' & _) & Hd & Hmin).
    exists g, d. split_and!; [done|done|].
    apply list_elem_of_lookup in Hf as [j Hj].
    destruct (Hmin j f dev Hj Hel) as [Hle _].
    pose proof (examined_dev_nonneg _ _ _ _ _ _ Hex') as Hge.
    apply Qle_antisym; [by rewrite <- Hdev | done].
  - destruct Hbest as [_ Hnone]. by destruct (Hnone f dev Hf).
Qed.

Lemma Scenario_mapped_nonneg :
  ∀ k m, max_deviation Scenario.mapped !! k = Some m → 0 <= m.
Proof.
  unfold Scenario.mapped, compute_max_deviation.
  destruct (find_best_fit Scenario.mapper);
    [apply deviation_loop_nonneg|];
    intros k m H; simpl in H; by rewrite lookup_empty in H.
Qed.

Lemma exact_match_assigned_witness :
  ready Scenario.mapped ∧ set_order Scenario.mapped [Some "y1"] ∧
  (∀ k m, max_deviation Scenario.mapped !! k = Some m → 0 <= m) ∧
  ∃ rows,
    map_test_data Scenario.mapped [Some "y1"] = Ok rows ∧
    Forall2 (fun pt row =>
               ∀ f dev m, f ∈ [Some "y1"] →
                 examined Scenario.mapped pt.1 pt.2 f dev m → dev == 0 →
                 ∃ g d, row_ideal_function row = Some g ∧
                        row_deviation row = Fin d ∧ d == 0)
            (test_data Scenario.mapped) rows.
Proof.
  pose proof Scenario_mapped_ready as H1.
  pose proof Scenario_mapped_order as H2.
  pose proof Scenario_mapped_nonneg as H3.
  split_and!; [exact H1 | exact H2 | exact H3 |].
  exact (exact_match_assigned Scenario.mapped [Some "y1"] H1 H2 H3).
Defined.



(** X5.  The [x] column of the ideal table is first read by
    [map_test_data]: without it, the call raises [KeyError('x')] as soon
    as there is a test point and a selected function, whatever else the
    object holds. *)
Theorem missing_ideal_x (self : TestDataMapper) (funcs : list (option string)) :
  df_col (ideal_data self) "x" = None → funcs ≠ [] → test_data self ≠ [] →
  map_test_data self funcs = Raise (KeyError (Some "x")).
Proof.
  intros Hx Hfuncs Htest. unfold map_test_data.
  destruct (test_data self) as [|pt pts]; [done|].
  destruct funcs as [|f rest]; [done|].
  change (mapM (map_row self (f :: rest)) (pt :: pts))
    with (y ← map_row self (f :: rest) pt;
          k ← mapM (map_row self (f :: rest)) pts; mret (y :: k)).
  unfold map_row. cbn [scan_selected]. unfold getitem. by rewrite Hx.
Qed.

Lemma missing_ideal_x_witness :
  df_col (ideal_data NoIdealX.mapped) "x" = None ∧
  [Some "y1"] ≠ ([] : list (option string)) ∧
  test_data NoIdealX.mapped ≠ [] ∧
  map_test_data NoIdealX.mapped [Some "y1"] = Raise (KeyError (Some "x")).
Proof.
  assert (H1 : df_col (ideal_data NoIdealX.mapped) "x" = None) by reflexivity.
  assert (H2 : [Some "y1"] ≠ ([] : list (option string))) by discriminate.
  assert (H3 : test_data NoIdealX.mapped ≠ []) by discriminate.
  split_and!; [exact H1 | exact H2 | exact H3 |].
  exact (missing_ideal_x NoIdealX.mapped [Some "y1"] H1 H2 H3).
Defined.

(** On that scenario the deviations were computed without complaint, and
    [y1] is the selected function. *)
Example NoIdealX_computed :
  (compute_max_deviation NoIdealX.mapper).1 = Ok () ∧
  selected_functions NoIdealX.mapped !! "y1" = Some (Some "y1").
Proof. split; vm_compute; reflexivity. Qed.

(** ** The loader of the visualization *)





(** ** The entries left out by the ranking *)



(** ** Rounding of the recorded error *)

Lemma rint_comp (q q' : Q) : q == q' → rint q = rint q'.
Proof.
  intros H. unfold rint.
  assert (Hf : Qfloor q' = Qfloor q) by (by rewrite H). rewrite Hf.
  set (f := Qfloor q). clearbody f.
  assert (E : Qcompare (q - inject_Z f) (1 # 2) =
              Qcompare (q' - inject_Z f) (1 # 2)).
  { apply Qcompare_comp; [|reflexivity]. by rewrite H. }
  by rewrite E.
Qed.


Lemma rint_mono (q q' : Q) : q <= q' → (rint q <= rint q')%Z.
Proof.
  intros Hle.
  pose proof (Qfloor_resp_le _ _ Hle) as Hfl.
  assert (Hlo : ∀ x, (Qfloor x <= rint x)%Z).
  { intros x. unfold rint.
    destruct (Qcompare _ _); [destruct (Z.even _)| |]; lia. }
  assert (Hhi : ∀ x, (rint x <= Qfloor x + 1)%Z).
  { intros x. unfold rint.
    destruct (Qcompare _ _); [destruct (Z.even _)| |]; lia. }
  destruct (Z.eq_dec (Qfloor q) (Qfloor q')) as [Heq | Hne].
  - unfold rint. rewrite <- Heq.
    set (f := Qfloor q) in *.
    destruct (Qcompare (q - inject_Z f) (1 # 2)) eqn:E;
      destruct (Qcompare (q' - inject_Z f) (1 # 2)) eqn:E';
      try (destruct (Z.even f)); try lia;
      exfalso;
      repeat match goal with
        | H : Qcompare _ _ = Eq |- _ => apply Qeq_alt in H
        | H : Qcompare _ _ = Lt |- _ => apply Qlt_alt in H
        | H : Qcompare _ _ = Gt |- _ => apply Qgt_alt in H
        end;
      clearbody f; qlra.
  - specialize (Hhi q). specialize (Hlo q'). lia.
Qed.

(** X8.  The rounding of the recorded error, [round(v, 4)], is monotone
    and leaves a value of at most four decimals as it is; so two recorded
    errors are never in the opposite order of the two MSEs. *)
Theorem round4_monotone_exact :
  (∀ q q', q <= q' → round4 q <= round4 q') ∧
  (∀ z, round4 (inject_Z z / 10000) == inject_Z z / 10000) ∧
  (∀ q q', round4 q < round4 q' → q < q').
Proof.
  assert (Hmono : ∀ q q', q <= q' → round4 q <= round4 q').
  { intros q q' Hle. unfold round4.
    assert (Hs : q * 10000 <= q' * 10000) by qlra.
    apply rint_mono in Hs.
    assert (Hz : inject_Z (rint (q * 10000)) <= inject_Z (rint (q' * 10000))).
    { unfold Qle. simpl. lia. }
    unfold Qdiv. apply Qmult_le_compat_r; [exact Hz|]. by vm_compute. }
  split_and!; [exact Hmono| |].
  - intros z. unfold round4.
    rewrite (rint_comp (inject_Z z / 10000 * 10000) (inject_Z z)).
    + by rewrite rint_inject_Z.
    + field.
  - intros q q' Hlt. apply Qnot_le_lt. intros Hle.
    apply Hmono in Hle. by apply Qle_not_lt in Hle.
Qed.

(** ** A training curve that is one of the ideal curves *)






(** ** The deviations of a selection with an unmatched curve *)

Lemma deviation_loop_raises self items :
  has_rows (train_data self) →
  (∀ c e, (c, e) ∈ items → select_one self c = Ok e) →
  (∃ c v, (c, (None, v)) ∈ items) →
  ∀ self0,
    train_data self0 = train_data self → ideal_data self0 = ideal_data self →
    (deviation_loop items self0).1 = Raise (KeyError None) ∧
    ∃ c, selected_functions (deviation_loop items self0).2 !! c = Some None.
Proof.
  intros Hrows.
  induction items as [|[c [b v]] rest IH]; intros Hsel (c0 & v0 & Hin) self0 Ht Hi.
  - by apply elem_of_nil in Hin.
  - assert (He : selected_entry self c (b, v)).
    { apply select_one_inv, Hsel, elem_of_cons. by left. }
    destruct (selected_entry_cases _ _ _ Hrows He)
      as (yc & m & Hyc & Hne & _ & Hcase).
    simpl in Hcase. cbn [deviation_loop].
    rewrite (pair_max_deviation_tables _ self) by done.
    destruct b as [d|].
    + destruct Hcase as (yd & Hyd & Hlen & _).
      destruct (pair_max_deviation_total self c d yc yd) as [m' ->]; try done.
      apply IH; try done.
      * intros c' e' Hin'. apply Hsel, elem_of_cons. by right.
      * apply elem_of_cons in Hin as [Heq|Hin]; [inversion Heq|]. eauto.
    + unfold pair_max_deviation, getitem. rewrite Hyc. simpl.
      split; [done|]. exists c. apply lookup_insert_eq.
Qed.

(** X10.  For a training table with rows, when the mapping returned by
    [find_best_fit] holds an entry without a function (a training curve
    without a candidate), [compute_max_deviation] ends in
    [KeyError(None)], and the object is left with a selected function
    [None]. *)
Theorem unmatched_breaks_deviation (self : TestDataMapper) (best_fits : dict fit)
    (c : string) (v : num) :
  has_rows (train_data self) →
  find_best_fit self = Some best_fits →
  (c, (None, v)) ∈ best_fits →
  (compute_max_deviation self).1 = Raise (KeyError None) ∧
  ∃ c', selected_functions (compute_max_deviation self).2 !! c' = Some None.
Proof.
  intros Hrows Hfit Hin. unfold compute_max_deviation. rewrite Hfit.
  destruct (find_best_fit_inv self best_fits Hfit)
    as (all_fits & _ & -> & _ & _ & Hsel).
  apply (deviation_loop_raises self); try done.
  - intros c' e' Hin'%ranked_subseteq. by apply Hsel.
  - eauto.
Qed.

Lemma unmatched_breaks_deviation_witness :
  has_rows (train_data Mismatch.mapper) ∧
  find_best_fit Mismatch.mapper = Some [("y1", (None, PInf))] ∧
  ("y1", (None, PInf)) ∈ [("y1", ((None : option string), PInf))] ∧
  (compute_max_deviation Mismatch.mapper).1 = Raise (KeyError None) ∧
  ∃ c', selected_functions (compute_max_deviation Mismatch.mapper).2 !! c' = Some None.
Proof.
  assert (H1 : has_rows (train_data Mismatch.mapper))
    by (repeat constructor; done).
  assert (H2 : find_best_fit Mismatch.mapper = Some [("y1", (None, PInf))])
    by reflexivity.
  assert (H3 : ("y1", (None, PInf)) ∈ [("y1", ((None : option string), PInf))])
    by (apply list_elem_of_singleton; reflexivity).
  split; [exact H1|]. split; [exact H2|]. split; [exact H3|].
  exact (unmatched_breaks_deviation Mismatch.mapper _ "y1" PInf H1 H2 H3).
Defined.

(** ** The two dictionaries after the deviations are computed *)

Lemma assign_all_empty_lookup {V : Type} (l : list (string * V)) (k : string) (v : V) :
  NoDup l.*1 → assign_all ∅ l !! k = Some v ↔ (k, v) ∈ l.
Proof.
  intros Hnd. rewrite assign_all_union, (right_id_L ∅ (∪)).
  rewrite <- elem_of_list_to_map.
  - apply elem_of_reverse.
  - by rewrite fmap_reverse, reverse_Permutation.
Qed.

Lemma find_best_fit_NoDup self best_fits :
  find_best_fit self = Some best_fits → NoDup best_fits.*1.
Proof.
  intros (all_fits & _ & -> & Hnd & _)%find_best_fit_inv.
  apply (sublist_NoDup _ (py_sorted fit_key all_fits).*1).
  - by rewrite py_sorted_perm.
  - apply fmap_sublist, sublist_take.
Qed.

(** X11.  After a successful [compute_max_deviation] on a fresh object,
    [selected_functions] holds exactly the pairs of the mapping returned
    by [find_best_fit], and [max_deviation] has an entry exactly for the
    functions that [selected_functions] names. *)
Theorem compute_max_deviation_state (train ideal : DataFrame) (test : list (Q * Q))
    (self' : TestDataMapper) :
  compute_max_deviation (init train ideal test) = (Ok (), self') →
  ∃ best_fits,
    find_best_fit (init train ideal test) = Some best_fits ∧
    (∀ c b, selected_functions self' !! c = Some b ↔ ∃ v, (c, (b, v)) ∈ best_fits) ∧
    (∀ d, is_Some (max_deviation self' !! d) ↔
          ∃ c, selected_functions self' !! c = Some (Some d)).
Proof.
  unfold compute_max_deviation.
  destruct (find_best_fit (init train ideal test)) as [best_fits|] eqn:Hfit; [|done].
  intros (kvs & Hkvs & ->)%deviation_loop_inv.
  exists best_fits. split; [done|].
  pose proof (find_best_fit_NoDup _ _ Hfit) as Hnd.
  assert (Hsel : ∀ c b,
    assign_all (∅ : gmap string (option string))
      (map (fun item : string * fit => (item.1, item.2.1)) best_fits) !! c = Some b ↔
    ∃ v, (c, (b, v)) ∈ best_fits).
  { intros c b. rewrite assign_all_empty_lookup.
    - rewrite list_elem_of_fmap. split.
      + intros ([c' [b' v]] & [= -> ->] & Hin). by exists v.
      + intros [v Hin]. by exists (c, (b, v)).
    - rewrite <- list_fmap_compose. exact Hnd. }
  simpl. split; [exact Hsel|].
  intros d. split.
  - intros [m Hm]. apply assign_all_lookup_inv in Hm as [Hin | Hm];
      [|by rewrite lookup_empty in Hm].
    apply list_elem_of_lookup in Hin as [i Hi].
    destruct (Forall2_lookup_r _ _ _ _ _ Hkvs Hi) as ([c [b v]] & Hitem & Hpair).
    simpl in Hpair. apply pair_max_deviation_inv in Hpair as [-> _].
    exists c. apply Hsel. exists v. apply list_elem_of_lookup. eauto.
  - intros [c [v Hin]%Hsel].
    apply list_elem_of_lookup in Hin as [i Hi].
    destruct (Forall2_lookup_l _ _ _ _ _ Hkvs Hi) as ([f m] & Hkv & Hpair).
    simpl in Hpair. apply pair_max_deviation_inv in Hpair as [[= <-] _].
    apply (assign_all_is_Some _ _ _ m). apply list_elem_of_lookup. eauto.
Qed.

Lemma compute_max_deviation_state_witness :
  compute_max_deviation (init Fixture.train Fixture.ideal Fixture.test) =
    (Ok (), Fixture.mapped) ∧
  ∃ best_fits,
    find_best_fit (init Fixture.train Fixture.ideal Fixture.test) = Some best_fits ∧
    (∀ c b, selected_functions Fixture.mapped !! c = Some b ↔
            ∃ v, (c, (b, v)) ∈ best_fits) ∧
    (∀ d, is_Some (max_deviation Fixture.mapped !! d) ↔
          ∃ c, selected_functions Fixture.mapped !! c = Some (Some d)).
Proof.
  assert (H : compute_max_deviation (init Fixture.train Fixture.ideal Fixture.test) =
              (Ok (), Fixture.mapped)) by reflexivity.
  split; [exact H|].
  exact (compute_max_deviation_state Fixture.train Fixture.ideal Fixture.test _ H).
Defined.

(** ** The best-fit plot *)

Lemma best_fit_loop_palette tr id items : ∀ i p,
  (i + length items ≤ 4)%nat → best_fit_loop tr id i items p ≠ Failed IndexError.
Proof.
  induction items as [|[c [b v]] rest IH]; intros i p Hlen; simpl; [done|].
  simpl in Hlen.
  destruct (getitem tr "x"); [|done].
  destruct (getitem tr c); [|done].
  destruct (lookup_lt_is_Some_2 colors i) as [color ->]; [simpl; lia|].
  destruct (getitem id "x"); [|done].
  destruct (label b ≫= _); [|done].
  apply IH. lia.
Qed.

(** X12.  The four colours of [create_best_fit_visualization] always
    suffice for what [find_best_fit] returns: whatever the tables, the
    plot of the best fits never ends in an [IndexError]. *)
Theorem best_fit_plot_palette (self : TestDataMapper) (training_df ideal_df : DataFrame) :
  create_best_fit_visualization training_df ideal_df (find_best_fit self)
  ≠ Failed IndexError.
Proof.
  unfold create_best_fit_visualization.
  destruct (find_best_fit self) as [best_fits|] eqn:Hfit; [|done].
  apply best_fit_loop_palette. simpl.
  by apply find_best_fit_at_most_4 in Hfit.
Qed.




(** ** The plot of the mapped test data *)





(** The tables of the repository's tests have two training curves: the
    plot of the mapped data ends in [KeyError('y3')]. *)
Example Fixture_mapped_plot :
  create_mapped_data_visualization Fixture.train Fixture.ideal
    (map unassigned Fixture.test) = Raise (KeyError (Some "y3")).
Proof. reflexivity. Qed.

(** On tables with the named columns it is drawn. *)
Example Assignment_mapped_plot :
  plot_columns Assignment.train Assignment.ideal ∧
  ∃ glyphs,
    create_mapped_data_visualization Assignment.train Assignment.ideal
      (map unassigned Assignment.test) = Ok glyphs.
Proof.
  split; [|by eexists].
  split; intros c Hc;
    repeat (apply elem_of_cons in Hc as [->|Hc]; [by eexists|]);
    by apply elem_of_nil in Hc.
Qed.

(** ** The names in the selection *)

Lemma get_columns_prefix (df : DataFrame) (prefix col : string) :
  col ∈ get_columns df prefix → String.prefix prefix col = true.
Proof.
  unfold get_columns. intros Hin.
  by apply list_elem_of_In, filter_In in Hin as [_ Hp].
Qed.

(** X15.  Every key of the mapping returned by [find_best_fit] is a
    column of the training table whose name starts with [y], and every
    function in it is a column of the ideal table whose name starts with
    [y]: the [x] column is never ranked and never selected. *)
Theorem best_fits_names (self : TestDataMapper) (best_fits : dict fit)
    (c : string) (b : option string) (v : num) :
  find_best_fit self = Some best_fits → (c, (b, v)) ∈ best_fits →
  String.prefix "y" c = true ∧ c ≠ "x" ∧ is_Some (df_col (train_data self) c) ∧
  ∀ d, b = Some d →
       String.prefix "y" d = true ∧ d ≠ "x" ∧ is_Some (df_col (ideal_data self) d).
Proof.
  intros Hfit Hin.
  destruct (find_best_fit_inv self best_fits Hfit)
    as (all_fits & _ & -> & _ & Hkeys & Hsel).
  apply ranked_subseteq in Hin.
  assert (Hc : c ∈ y_train_cols self).
  { apply Hkeys, list_elem_of_fmap. by exists (c, (b, v)). }
  assert (Hx : ∀ s, String.prefix "y" s = true → s ≠ "x").
  { intros s Hs ->. done. }
  pose proof (get_columns_prefix _ _ _ Hc) as Hp.
  split_and!; [done|by apply Hx|by eapply get_columns_col|].
  intros d ->. apply Hsel, select_one_inv in Hin.
  destruct Hin as (yc & m & mse & _ & Hmin & _). simpl in Hmin.
  destruct Hmin as (i & yd & Hi & Hd & _).
  assert (Hdc : d ∈ y_ideal_cols self) by (apply list_elem_of_lookup; eauto).
  pose proof (get_columns_prefix _ _ _ Hdc) as Hpd.
  split_and!; [done|by apply Hx|by eexists].
Qed.

Lemma best_fits_names_witness :
  find_best_fit Fixture.mapper =
    Some [("y1", (Some "y2", Fin (round4 0)));
          ("y2", (Some "y2", Fin (round4 (1 # 100))))] ∧
  ("y1", (Some "y2", Fin (round4 0))) ∈
    [("y1", (Some "y2", Fin (round4 0)));
     ("y2", (Some "y2", Fin (round4 (1 # 100))))] ∧
  String.prefix "y" "y1" = true ∧ "y1" ≠ "x" ∧
  is_Some (df_col (train_data Fixture.mapper) "y1") ∧
  ∀ d, Some "y2" = Some d →
       String.prefix "y" d = true ∧ d ≠ "x" ∧
       is_Some (df_col (ideal_data Fixture.mapper) d).
Proof.
  assert (H1 : find_best_fit Fixture.mapper =
    Some [("y1", (Some "y2", Fin (round4 0)));
          ("y2", (Some "y2", Fin (round4 (1 # 100))))])
    by (vm_compute; reflexivity).
  assert (H2 : ("y1", (Some "y2", Fin (round4 0))) ∈
    [("y1", (Some "y2", Fin (round4 0)));
     ("y2", (Some "y2", Fin (round4 (1 # 100))))])
    by (apply elem_of_cons; left; reflexivity).
  split; [exact H1|]. split; [exact H2|].
  exact (best_fits_names Fixture.mapper _ "y1" (Some "y2") _ H1 H2).
Defined.

(** ** The iteration order of the set of selected functions *)

Lemma Forall2_join {A B C : Type} (P : A → B → Prop) (Q : A → C → Prop)
    (R : B → C → Prop) (l : list A) : ∀ k1 k2,
  (∀ a b c, P a b → Q a c → R b c) →
  Forall2 P l k1 → Forall2 Q l k2 → Forall2 R k1 k2.
Proof.
  induction l as [|a l IH]; intros k1 k2 HR H1 H2.
  - apply Forall2_nil_inv_l in H1 as ->. apply Forall2_nil_inv_l in H2 as ->.
    constructor.
  - apply Forall2_cons_inv_l in H1 as (b & k1' & Hb & H1 & ->).
    apply Forall2_cons_inv_l in H2 as (c & k2' & Hc & H2 & ->).
    constructor; [by eapply HR | by apply IH].
Qed.

Lemma assigned_best_orders self funcs1 funcs2 x y best1 d1 best2 d2 :
  (∀ f, f ∈ funcs1 ↔ f ∈ funcs2) →
  assigned_best self funcs1 x y best1 d1 →
  assigned_best self funcs2 x y best2 d2 →
  match best1, best2 with
  | None, None => d1 = PInf ∧ d2 = PInf
  | Some _, Some _ => ∃ q1 q2, d1 = Fin q1 ∧ d2 = Fin q2 ∧ q1 == q2
  | _, _ => False
  end.
Proof.
  intros Hsame H1 H2.
  destruct best1 as [g1|], best2 as [g2|]; simpl in *.
  - destruct H1 as (i1 & q1 & Hi1 & Hel1 & -> & Hmin1).
    destruct H2 as (i2 & q2 & Hi2 & Hel2 & -> & Hmin2).
    exists q1, q2. split_and!; [done|done|].
    assert (Hg2 : Some g2 ∈ funcs1) by (apply Hsame, list_elem_of_lookup; eauto).
    assert (Hg1 : Some g1 ∈ funcs2) by (apply Hsame, list_elem_of_lookup; eauto).
    apply list_elem_of_lookup in Hg2 as [j2 Hj2].
    apply list_elem_of_lookup in Hg1 as [j1 Hj1].
    destruct (Hmin1 j2 _ _ Hj2 Hel2) as [Hle1 _].
    destruct (Hmin2 j1 _ _ Hj1 Hel1) as [Hle2 _].
    by apply Qle_antisym.
  - destruct H1 as (i1 & q1 & Hi1 & Hel1 & _). destruct H2 as [_ Hnone].
    eapply Hnone; [|exact Hel1]. apply Hsame, list_elem_of_lookup. eauto.
  - destruct H2 as (i2 & q2 & Hi2 & Hel2 & _). destruct H1 as [_ Hnone].
    eapply Hnone; [|exact Hel2]. apply Hsame, list_elem_of_lookup. eauto.
  - by destruct H1, H2.
Qed.

(** X16.  In a ready state, the order in which the set of selected
    functions is iterated matters on exact ties only: for two orders, the
    two frames returned by [map_test_data] agree row by row on whether the
    point is assigned and on its deviation. *)
Theorem iteration_order_only_ties (self : TestDataMapper)
    (funcs1 funcs2 : list (option string)) :
  ready self → set_order self funcs1 → set_order self funcs2 →
  ∃ rows1 rows2,
    map_test_data self funcs1 = Ok rows1 ∧
    map_test_data self funcs2 = Ok rows2 ∧
    Forall2 same_up_to_ties rows1 rows2.
Proof.
  intros Hready H1 H2.
  destruct (map_test_data_spec self funcs1 Hready H1) as (rows1 & Hr1 & Hall1).
  destruct (map_test_data_spec self funcs2 Hready H2) as (rows2 & Hr2 & Hall2).
  exists rows1, rows2. split_and!; [done|done|].
  eapply Forall2_join; [|exact Hall1|exact Hall2].
  simpl. intros pt r1 r2 (Hx1 & Hy1 & Hb1) (Hx2 & Hy2 & Hb2).
  split_and!; [congruence|congruence|].
  eapply assigned_best_orders; [|exact Hb1|exact Hb2].
  intros f. destruct H1 as [_ ->], H2 as [_ ->]. done.
Qed.

Lemma Tie_mapped_ready : ready Tie.mapped.
Proof.
  apply (compute_max_deviation_ready Tie.train Tie.ideal Tie.test).
  - by eexists.
  - reflexivity.
Qed.

Lemma Tie_mapped_order (funcs : list (option string)) :
  funcs = [Some "y1"; Some "y2"] ∨ funcs = [Some "y2"; Some "y1"] →
  set_order Tie.mapped funcs.
Proof.
  assert (Hsel : selected_functions Tie.mapped =
                 <["y1" := Some "y1"]> (<["y2" := Some "y2"]> ∅))
    by (vm_compute; reflexivity).
  intros Hfuncs. split.
  - destruct Hfuncs as [-> | ->]; apply NoDup_cons;
      (split; [by intros [= ]%list_elem_of_singleton | apply NoDup_singleton]).
  - intros f. rewrite Hsel. split.
    + intros Hf.
      assert (Hcase : f = Some "y1" ∨ f = Some "y2").
      { destruct Hfuncs as [-> | ->];
          apply elem_of_cons in Hf as [->|Hf%list_elem_of_singleton]; auto. }
      destruct Hcase as [-> | ->]; [by exists "y1" | by exists "y2"].
    + intros [c Hc].
      apply lookup_insert_Some in Hc as [[_ <-] | [_ Hc]].
      * destruct Hfuncs as [-> | ->]; set_solver.
      * apply lookup_insert_Some in Hc as [[_ <-] | [_ Hc]];
          [|by rewrite lookup_empty in Hc].
        destruct Hfuncs as [-> | ->]; set_solver.
Qed.

Lemma iteration_order_only_ties_witness :
  ready Tie.mapped ∧
  set_order Tie.mapped [Some "y1"; Some "y2"] ∧
  set_order Tie.mapped [Some "y2"; Some "y1"] ∧
  ∃ rows1 rows2,
    map_test_data Tie.mapped [Some "y1"; Some "y2"] = Ok rows1 ∧
    map_test_data Tie.mapped [Some "y2"; Some "y1"] = Ok rows2 ∧
    Forall2 same_up_to_ties rows1 rows2.
Proof.
  pose proof Tie_mapped_ready as H1.
  pose proof (Tie_mapped_order _ (or_introl eq_refl)) as H2.
  pose proof (Tie_mapped_order _ (or_intror eq_refl)) as H3.
  split; [exact H1|]. split; [exact H2|]. split; [exact H3|].
  exact (iteration_order_only_ties Tie.mapped _ _ H1 H2 H3).
Defined.

(** On a tie the function does depend on the order. *)
Example Tie_rows :
  (row_ideal_function <$>
     match map_test_data Tie.mapped [Some "y1"; Some "y2"] with
     | Ok rows => rows | Raise _ => [] end) = [Some "y1"] ∧
  (row_ideal_function <$>
     match map_test_data Tie.mapped [Some "y2"; Some "y1"] with
     | Ok rows => rows | Raise _ => [] end) = [Some "y2"].
Proof. split; vm_compute; reflexivity. Qed.
